(** * AgenticAssistant, example_six backend: document synchronisation,
      context evaluation and the calculator tool

    A shallow embedding of
      - [models.py]   (the [document_metadata] table and its helpers),
      - [utils.py]    (the [./data] folder),
      - [agent.py]    ([AgentDocument]: add / update / delete of a file),
      - [main.py]     (the [/upload/], [/update/], [/delete/] endpoints),
      - [context_evaluator.py] ([ContextEvaluator]),
      - [mcp_tools.py] ([CalculatorMCPTool.execute]),
    followed by the properties of the synchronisation protocol, of the
    evaluator and of the calculator.

    Python code that raises is embedded in a state-and-exception monad
    over an explicit [World]; an exception leaves the world as it was
    when the exception was raised, as in Python.  What the libraries
    outside the repository do (the vector index, the database, the file
    reader, the completion service) is scripted in the world, so that
    every property holds for every behaviour of theirs. *)

From Stdlib Require Import String Ascii List ZArith Bool Floats.
Import ListNotations.
#[local] Set Warnings "-inexact-float,-register-all".
Local Open Scope string_scope.
Local Open Scope list_scope.

(* ================================================================== *)
(** * Python results and exceptions *)

Inductive result (A : Type) : Type :=
| Return (a : A)
| Raise (e : string).
Arguments Return {A} a.
Arguments Raise {A} e.

(** [d.get(key, default)] on a key whose entry may be absent. *)
Definition get {A : Type} (entry : option A) (default : A) : A :=
  match entry with
  | Some v => v
  | None => default
  end.

(* ================================================================== *)
(** * Data model *)

Definition datetime := Z.

(** The entries of [doc.metadata] that the code reads.  Every one of them
    is read with [.get(key, default)], hence may be absent. *)
Module Metadata.
Record t : Type := mk {
  file_name : option string;
  file_type : option string;
  file_path : option string;
  file_size : option Z;
  creation_date : option datetime;
  modified_at : option datetime;
  accessed_at : option datetime
}.
End Metadata.

(** A LlamaIndex [Document]: its identifier, its text and its metadata. *)
Record Document : Type := mkDocument {
  doc_id : string;
  text : string;
  metadata : Metadata.t
}.

(** [updated_documents[i].doc_id = doc_id] *)
Definition set_doc_id (d : Document) (x : string) : Document :=
  mkDocument x (text d) (metadata d).

(** A row of the table [document_metadata] (class [DocumentMetadata]). *)
Module DocumentMetadata.
Record t : Type := mk {
  id : Z;
  filename : string;
  doc_id : string;
  mime_type : string;
  file_path : string;
  size : Z;
  creation_date : option datetime;
  modified_at : option datetime;
  accessed_at : option datetime
}.

(** The row as the INSERT stores it: the key comes from the sequence,
    and a timestamp that is [None] on the object is left out of the
    INSERT, so that the default of the column applies. *)
Definition inserted (r : t) (i : Z) (default : datetime) : t :=
  mk i (filename r) (doc_id r) (mime_type r) (file_path r) (size r)
     (Some (get (creation_date r) default))
     (Some (get (modified_at r) default))
     (Some (get (accessed_at r) default)).
End DocumentMetadata.

(** The multipart upload: [file.filename] and the bytes of [file.file]. *)
Record UploadFile : Type := mkUploadFile {
  filename : string;
  file : string
}.

(** A JSON response of an endpoint: the dict literal, in source order. *)
Definition Response := list (string * string).

(* ================================================================== *)
(** * The world outside the process *)

(** Calls made to the two stores, as a test double would record them. *)
Inductive Call : Type :=
| IndexInsert (ref_doc_id : string)     (* index.insert(doc)          *)
| IndexUpdateRefDoc (ref_doc_id : string) (* index.update_ref_doc(doc) *)
| IndexDeleteRefDoc (ref_doc_id : string) (* index.delete_ref_doc(id)  *)
| DbCommit.                              (* db.commit()                *)

Definition is_index_call (c : Call) : bool :=
  match c with
  | DbCommit => false
  | _ => true
  end.

Record World : Type := mkWorld {
  (** committed rows of [document_metadata], in insertion order *)
  table : list DocumentMetadata.t;
  (** next value of the autoincrement primary key *)
  next_id : Z;
  (** the vector index, seen as (ref_doc_id, text) entries *)
  index : list (string * string);
  (** the files on disk: (path, bytes) *)
  disk : list (string * string);
  (** [agent_instance is not None] *)
  agent_instance : bool;
  (** every store call so far, oldest first, with [true] for success *)
  calls : list (Call * bool);
  (** outcome of the coming index calls: [true] makes the call raise *)
  index_faults : list bool;
  (** outcome of the coming [db.commit()] calls *)
  commit_faults : list bool;
  (** outcome of the coming writes to the data folder *)
  disk_faults : list bool;
  (** what the coming [SimpleDirectoryReader(...).load_data()] calls give:
      the documents read, with the identifiers the library draws for
      them, or an exception *)
  load_data_results : list (result (list Document));
  (** what the coming [llm.acomplete(prompt)] calls give: the text of the
      reply, or an exception *)
  completions : list (result string);
  (** [datetime.now(timezone.utc)] as evaluated when [models.py] was
      imported: the default of the three timestamp columns *)
  import_time : datetime
}.

Definition set_table (w : World) (t : list DocumentMetadata.t) (n : Z)
  : World :=
  mkWorld t n (index w) (disk w) (agent_instance w) (calls w)
          (index_faults w) (commit_faults w) (disk_faults w)
          (load_data_results w) (completions w) (import_time w).

Definition set_index (w : World) (i : list (string * string)) : World :=
  mkWorld (table w) (next_id w) i (disk w) (agent_instance w) (calls w)
          (index_faults w) (commit_faults w) (disk_faults w)
          (load_data_results w) (completions w) (import_time w).

Definition set_disk (w : World) (d : list (string * string)) : World :=
  mkWorld (table w) (next_id w) (index w) d (agent_instance w) (calls w)
          (index_faults w) (commit_faults w) (disk_faults w)
          (load_data_results w) (completions w) (import_time w).

Definition log_call (w : World) (c : Call) (ok : bool) : World :=
  mkWorld (table w) (next_id w) (index w) (disk w) (agent_instance w)
          (calls w ++ [(c, ok)])
          (index_faults w) (commit_faults w) (disk_faults w)
          (load_data_results w) (completions w) (import_time w).

Definition set_index_faults (w : World) (l : list bool) : World :=
  mkWorld (table w) (next_id w) (index w) (disk w) (agent_instance w) (calls w)
          l (commit_faults w) (disk_faults w)
          (load_data_results w) (completions w) (import_time w).

Definition set_commit_faults (w : World) (l : list bool) : World :=
  mkWorld (table w) (next_id w) (index w) (disk w) (agent_instance w) (calls w)
          (index_faults w) l (disk_faults w)
          (load_data_results w) (completions w) (import_time w).

Definition set_disk_faults (w : World) (l : list bool) : World :=
  mkWorld (table w) (next_id w) (index w) (disk w) (agent_instance w) (calls w)
          (index_faults w) (commit_faults w) l
          (load_data_results w) (completions w) (import_time w).

Definition set_load_data_results (w : World)
    (l : list (result (list Document))) : World :=
  mkWorld (table w) (next_id w) (index w) (disk w) (agent_instance w) (calls w)
          (index_faults w) (commit_faults w) (disk_faults w) l (completions w)
          (import_time w).

Definition set_completions (w : World) (l : list (result string)) : World :=
  mkWorld (table w) (next_id w) (index w) (disk w) (agent_instance w) (calls w)
          (index_faults w) (commit_faults w) (disk_faults w)
          (load_data_results w) l (import_time w).

(** The head of a fault script; an exhausted script means no fault. *)
Definition next_fault (l : list bool) : bool := hd false l.

(* ================================================================== *)
(** * The monad of Python code acting on the world *)

Definition M (A : Type) : Type := World -> result A * World.

Definition ret {A} (a : A) : M A := fun w => (Return a, w).

Definition bind {A B} (m : M A) (f : A -> M B) : M B :=
  fun w =>
    match m w with
    | (Return a, w') => f a w'
    | (Raise e, w') => (Raise e, w')
    end.

(** [try: m except Exception as e: h e] *)
Definition try_except {A} (m : M A) (h : string -> M A) : M A :=
  fun w =>
    match m w with
    | (Return a, w') => (Return a, w')
    | (Raise e, w') => h e w'
    end.

Declare Scope py_scope.
Delimit Scope py_scope with py.
Notation "x <- m ;; k" := (bind m (fun x => k))
  (at level 100, m at next level, right associativity) : py_scope.
Notation "m ;; k" := (bind m (fun _ => k))
  (at level 100, right associativity) : py_scope.
Local Open Scope py_scope.

(** [for x in l: body x] *)
Fixpoint for_each {A} (l : list A) (body : A -> M unit) : M unit :=
  match l with
  | [] => ret tt
  | x :: l' => body x ;; for_each l' body
  end.

(* ================================================================== *)
(** * models.py: the metadata store *)

Definition has_doc_id (x : string) (r : DocumentMetadata.t) : bool :=
  String.eqb (DocumentMetadata.doc_id r) x.

Definition has_filename (f : string) (r : DocumentMetadata.t) : bool :=
  String.eqb (DocumentMetadata.filename r) f.

(** [db.query(DocumentMetadata).filter(p).first()]: a read of the
    committed rows.  Reads are taken to succeed. *)
Definition query_first (p : DocumentMetadata.t -> bool)
  : M (option DocumentMetadata.t) :=
  fun w => (Return (find p (table w)), w).

Definition is_not_None {A} (o : option A) : bool :=
  match o with
  | Some _ => true
  | None => false
  end.

Definition check_document_exists_with_doc_id (x : string) : M bool :=
  document <- query_first (has_doc_id x) ;;
  ret (is_not_None document).

Definition check_document_exists_with_filename (f : string) : M bool :=
  document <- query_first (has_filename f) ;;
  ret (is_not_None document).

Definition get_doc_id_from_filename (f : string) : M (option string) :=
  document <- query_first (has_filename f) ;;
  match document with
  | Some d => ret (Some (DocumentMetadata.doc_id d))
  | None => ret None
  end.

(** [DocumentMetadata(filename=doc.metadata.get("file_name", "unknown"), ...)];
    the primary key is given by the database when the row is flushed. *)
Definition new_row (doc : Document) : DocumentMetadata.t :=
  let md := metadata doc in
  DocumentMetadata.mk 0
    (get (Metadata.file_name md) "unknown")
    (doc_id doc)
    (get (Metadata.file_type md) "unknown")
    (get (Metadata.file_path md) "unknown")
    (get (Metadata.file_size md) 0%Z)
    (Metadata.creation_date md)
    (Metadata.modified_at md)
    (Metadata.accessed_at md).

(** The three assignments on [document_to_update]. *)
Definition refresh (doc : Document) (r : DocumentMetadata.t) : DocumentMetadata.t :=
  let md := metadata doc in
  DocumentMetadata.mk
    (DocumentMetadata.id r)
    (DocumentMetadata.filename r)
    (DocumentMetadata.doc_id r)
    (DocumentMetadata.mime_type r)
    (DocumentMetadata.file_path r)
    (get (Metadata.file_size md) (DocumentMetadata.size r))
    (DocumentMetadata.creation_date r)
    (match Metadata.modified_at md with
     | Some t => Some t
     | None => DocumentMetadata.modified_at r
     end)
    (match Metadata.accessed_at md with
     | Some t => Some t
     | None => DocumentMetadata.accessed_at r
     end).

(** Apply [f] to the first row that satisfies [p]. *)
Fixpoint update_first (p : DocumentMetadata.t -> bool)
    (f : DocumentMetadata.t -> DocumentMetadata.t)
    (rows : list DocumentMetadata.t) : list DocumentMetadata.t :=
  match rows with
  | [] => []
  | r :: rows' => if p r then f r :: rows' else r :: update_first p f rows'
  end.

(** Remove the first row that satisfies [p]. *)
Fixpoint remove_first (p : DocumentMetadata.t -> bool)
    (rows : list DocumentMetadata.t) : list DocumentMetadata.t :=
  match rows with
  | [] => []
  | r :: rows' => if p r then rows' else r :: remove_first p rows'
  end.

Fixpoint insert_rows (n : Z) (default : datetime)
    (rows : list DocumentMetadata.t) : list DocumentMetadata.t :=
  match rows with
  | [] => []
  | r :: rows' =>
      DocumentMetadata.inserted r n default :: insert_rows (n + 1) default rows'
  end.

(** The [unique=True] constraint on [doc_id], checked insert by insert. *)
Fixpoint unique_doc_ids (rows new : list DocumentMetadata.t) : bool :=
  match new with
  | [] => true
  | r :: new' =>
      negb (existsb (has_doc_id (DocumentMetadata.doc_id r)) rows)
      && unique_doc_ids (rows ++ [r]) new'
  end.

(** [db.commit()]: flush the objects added to the session ([new]) and the
    change made to loaded rows ([change]), then commit.  The commit either
    takes effect as a whole or raises and leaves the table as it was.
    [next_id] is the key of the next row stored; a commit that fails
    keeps it here, so it is exact only as long as no failed commit had
    rows to insert (the database does not hand back the keys such an
    INSERT drew). *)
Definition commit (new : list DocumentMetadata.t)
    (change : list DocumentMetadata.t -> list DocumentMetadata.t) : M unit :=
  fun w =>
    let w1 := set_commit_faults w (tl (commit_faults w)) in
    if next_fault (commit_faults w) then
      (Raise "OperationalError", log_call w1 DbCommit false)
    else if unique_doc_ids (change (table w)) new then
      (Return tt,
       log_call
         (set_table w1
            (change (table w) ++ insert_rows (next_id w) (import_time w) new)
            (next_id w + Z.of_nat (length new)))
         DbCommit true)
    else
      (Raise "IntegrityError", log_call w1 DbCommit false).

Definition no_change (rows : list DocumentMetadata.t) : list DocumentMetadata.t :=
  rows.

(** The [for doc in docs] loop of [create_document_session]; [new] holds
    the objects passed to [db.add] and not yet committed.  The existence
    check runs in a session of its own and the session of the loop does
    not autoflush, so both only see committed rows. *)
Fixpoint session_loop (docs : list Document) (new : list DocumentMetadata.t)
  : M (list DocumentMetadata.t) :=
  match docs with
  | [] => ret new
  | doc :: docs' =>
      existing <- check_document_exists_with_doc_id (doc_id doc) ;;
      if negb existing then
        session_loop docs' (new ++ [new_row doc])
      else
        document_to_update <- query_first (has_doc_id (doc_id doc)) ;;
        match document_to_update with
        | Some _ =>
            commit new (update_first (has_doc_id (doc_id doc)) (refresh doc)) ;;
            session_loop docs' []
        | None => session_loop docs' new
        end
  end.

(** [create_document_session]: every exception is caught, printed and
    followed by [db.rollback()], which drops what was not committed. *)
Definition create_document_session (docs : list Document) : M unit :=
  try_except
    (new <- session_loop docs [] ;;
     commit new no_change)
    (fun _ => ret tt).

Definition delete_document_metadata_by_doc_id (x : string) : M bool :=
  try_except
    (document <- query_first (has_doc_id x) ;;
     match document with
     | Some _ =>
         commit [] (remove_first (has_doc_id x)) ;;
         ret true
     | None => ret false
     end)
    (fun _ => ret false).

(* ================================================================== *)
(** * utils.py: the data folder *)

Definition Path := string.

(** [Path("./data") / name], as [str] prints it, for the name of an
    entry of the data folder (a name that is not empty, not [.] or [..]
    and has no separator). *)
Definition data_path (name : string) : Path := ("data/" ++ name)%string.

Definition path_is (p : Path) (entry : string * string) : bool :=
  String.eqb (fst entry) p.

Definition path_exists (p : Path) : M bool :=
  fun w => (Return (existsb (path_is p) (disk w)), w).

Definition write_file (p : Path) (bytes : string) (d : list (string * string))
  : list (string * string) :=
  (p, bytes) :: filter (fun e => negb (path_is p e)) d.

Definition remove_file (p : Path) (d : list (string * string))
  : list (string * string) :=
  filter (fun e => negb (path_is p e)) d.

(** Returns [(True, file_path, None)] once the upload is written.  The
    write that the environment refuses is refused by [open], for want of
    permission: nothing is written, and [(False, file_path, str(e))] is
    returned.  Two other ways to fail are not scripted: [mkdir] raising,
    which leaves [file_path] unbound for the [except] clause, and the
    copy raising after [open] has emptied the file. *)
Definition save_file_to_data_folder (f : UploadFile)
  : M (bool * Path * option string) :=
  fun w =>
    let file_path := data_path (filename f) in
    let w1 := set_disk_faults w (tl (disk_faults w)) in
    if next_fault (disk_faults w) then
      (Return (false, file_path,
               Some ("[Errno 13] Permission denied: '" ++ file_path ++ "'")%string),
       w1)
    else
      (Return (true, file_path, None),
       set_disk w1 (write_file file_path (file f) (disk w))).

(** [delete_file]: the data folder holds files only, so that
    [os.remove] is never handed a directory (on which it would raise). *)
Definition delete_file (name : string) : M unit :=
  let filepath := data_path name in
  present <- path_exists filepath ;;
  if present then
    fun w => (Return tt, set_disk w (remove_file filepath (disk w)))
  else ret tt.

(* ================================================================== *)
(** * agent.py: [AgentDocument] *)

Definition Index := list (string * string).

Definition ref_doc_is (x : string) (entry : string * string) : bool :=
  String.eqb (fst entry) x.

(** A call to the vector index: it raises when the environment says so and
    leaves the index alone, otherwise its effect takes place. *)
Definition index_call (c : Call) (effect : Index -> Index) : M unit :=
  fun w =>
    let w1 := set_index_faults w (tl (index_faults w)) in
    if next_fault (index_faults w) then
      (Raise "index error", log_call w1 c false)
    else
      (Return tt, log_call (set_index w1 (effect (index w))) c true).

(** [self.index.insert(doc)] *)
Definition index_insert (doc : Document) : M unit :=
  index_call (IndexInsert (doc_id doc))
             (fun i => i ++ [(doc_id doc, text doc)]).

(** [self.index.update_ref_doc(doc)]: what the index holds under the
    identifier of [doc] is replaced by [doc]. *)
Definition index_update_ref_doc (doc : Document) : M unit :=
  index_call (IndexUpdateRefDoc (doc_id doc))
             (fun i => filter (fun e => negb (ref_doc_is (doc_id doc) e)) i
                       ++ [(doc_id doc, text doc)]).

(** [self.index.delete_ref_doc(doc_id)] *)
Definition index_delete_ref_doc (x : string) : M unit :=
  index_call (IndexDeleteRefDoc x)
             (filter (fun e => negb (ref_doc_is x e))).

(** [SimpleDirectoryReader(input_files=[filepath]).load_data()] *)
Definition load_data (filepath : Path) : M (list Document) :=
  fun w =>
    match load_data_results w with
    | [] => (Return [], w)
    | r :: rest => (r, set_load_data_results w rest)
    end.

Definition add_file_context_to_agent (filepath : Path) : M bool :=
  present <- path_exists filepath ;;
  if present then
    documents <- load_data filepath ;;
    (* store document_id on a separate metadata table *)
    create_document_session documents ;;
    (* Insert into existing index *)
    for_each documents index_insert ;;
    ret true
  else ret false.

Definition update_file_context_in_agent (filepath : Path) (x : string) : M bool :=
  present <- path_exists filepath ;;
  if present then
    updated_documents <- load_data filepath ;;
    for_each updated_documents
      (fun doc => index_update_ref_doc (set_doc_id doc x)) ;;
    (* update DocumentMetadata table *)
    create_document_session (map (fun doc => set_doc_id doc x) updated_documents) ;;
    ret true
  else ret false.

Definition delete_file_context_in_agent (x : string) : M bool :=
  try_except
    (index_delete_ref_doc x ;;
     _ <- delete_document_metadata_by_doc_id x ;;
     ret true)
    (fun _ => ret false).

(* ================================================================== *)
(** * main.py: the endpoints *)

(** [if agent_instance:] *)
Definition read_agent_instance : M bool :=
  fun w => (Return (agent_instance w), w).

Definition upload_already_exists (name : string) : Response :=
  [("filename", name);
   ("error", "File already exist in database. Please use update.");
   ("status", "failed")].

Definition write_failed (error_msg : option string) (file_path : Path) : Response :=
  [("error", get error_msg "None");
   ("status", ("writing file into " ++ file_path ++ " failed")%string)].

Definition upload_indexed (name : string) (file_path : Path) : Response :=
  [("filename", name);
   ("message", "File saved and indexed successfully");
   ("file_path", file_path)].

Definition upload_indexing_failed (name : string) (file_path : Path) : Response :=
  [("filename", name);
   ("message", "File saved but indexing failed");
   ("file_path", file_path)].

Definition upload_no_agent (name : string) (file_path : Path) : Response :=
  [("filename", name);
   ("message", "File saved but agent not initialized");
   ("file_path", file_path)].

Definition upload_exception (e : string) : Response :=
  [("error", e); ("status", "upload file failed")].

Definition upload_file (f : UploadFile) : M Response :=
  try_except
    (exists_in_db <- check_document_exists_with_filename (filename f) ;;
     if exists_in_db then ret (upload_already_exists (filename f))
     else
       saved <- save_file_to_data_folder f ;;
       let '(file_saved, file_path, error_msg) := saved in
       if negb file_saved then ret (write_failed error_msg file_path)
       else
         agent <- read_agent_instance ;;
         if agent then
           store_doc_in_agent <- add_file_context_to_agent file_path ;;
           if store_doc_in_agent
           then ret (upload_indexed (filename f) file_path)
           else ret (upload_indexing_failed (filename f) file_path)
         else ret (upload_no_agent (filename f) file_path))
    (fun e => ret (upload_exception e)).

Definition update_not_in_database (name : string) : Response :=
  [("filename", name);
   ("message", "File does not exist in database. Please upload first.")].

Definition no_document_id (name : string) : Response :=
  [("filename", name);
   ("message", "Could not retrieve document ID from filename.")].

Definition update_reindexed (name : string) (file_path : Path) : Response :=
  [("filename", name);
   ("message", "File updated and re-indexed successfully");
   ("file_path", file_path)].

Definition update_reindexing_failed (name : string) (file_path : Path) : Response :=
  [("filename", name);
   ("message", "File updated but re-indexing failed");
   ("file_path", file_path)].

Definition update_no_agent (name : string) (file_path : Path) : Response :=
  [("filename", name);
   ("message", "File updated but agent not initialized");
   ("file_path", file_path)].

Definition update_exception (e : string) : Response :=
  [("error", e); ("status", "update file failed")].

Definition update_file (f : UploadFile) : M Response :=
  try_except
    (exists_in_db <- check_document_exists_with_filename (filename f) ;;
     if negb exists_in_db then ret (update_not_in_database (filename f))
     else
       found <- get_doc_id_from_filename (filename f) ;;
       match found with
       | None => ret (no_document_id (filename f))
       | Some x =>
           (* [if not doc_id:] also holds of the empty string *)
           if String.eqb x "" then ret (no_document_id (filename f))
           else
             saved <- save_file_to_data_folder f ;;
             let '(file_saved, file_path, error_msg) := saved in
             if negb file_saved then ret (write_failed error_msg file_path)
             else
               agent <- read_agent_instance ;;
               if agent then
                 update_doc_in_agent <- update_file_context_in_agent file_path x ;;
                 if update_doc_in_agent
                 then ret (update_reindexed (filename f) file_path)
                 else ret (update_reindexing_failed (filename f) file_path)
               else ret (update_no_agent (filename f) file_path)
       end)
    (fun e => ret (update_exception e)).

Definition delete_index_failed (name : string) : Response :=
  [("filename", name);
   ("message", "Failed to delete from vector store.")].

Definition delete_done (name : string) : Response :=
  [("filename", name);
   ("message", "File deleted successfully from disk and vector store.")].

Definition delete_exception (e : string) : Response :=
  [("error", e); ("status", "delete file failed")].

(** The end of [delete_file_endpoint]: the file goes, success is reported. *)
Definition delete_from_disk (name : string) : M Response :=
  delete_file name ;;
  ret (delete_done name).

Definition delete_file_endpoint (name : string) : M Response :=
  try_except
    (found <- get_doc_id_from_filename name ;;
     match found with
     | None => ret (no_document_id name)
     | Some x =>
         if String.eqb x "" then ret (no_document_id name)
         else
           agent <- read_agent_instance ;;
           if agent then
             delete_in_agent <- delete_file_context_in_agent x ;;
             if negb delete_in_agent then ret (delete_index_failed name)
             else delete_from_disk name
           else delete_from_disk name
     end)
    (fun e => ret (delete_exception e)).

(* ================================================================== *)
(** * context_evaluator.py: [ContextEvaluator] *)

(** What [json.loads] returns. *)
Inductive Json : Type :=
| JNull
| JBool (b : bool)
| JInt (z : Z)
| JFloat (x : float)
| JStr (s : string)
| JList (l : list Json)
| JDict (d : list (string * Json)).

(** The outcome of [json.loads(text)]. *)
Inductive Loads : Type :=
| Loaded (v : Json)
| JSONDecodeError
| OtherError (e : string).

Module Relevance.
Record t : Type := mk {
  relevance_score : float;
  explanation : Json;
  key_points : Json
}.
End Relevance.

Module Completeness.
Record t : Type := mk {
  completeness_score : float;
  explanation : Json;
  missing_aspects : Json
}.
End Completeness.

Module Quality.
Record t : Type := mk {
  overall_quality_score : float;
  relevance : Relevance.t;
  completeness : Completeness.t;
  recommendation : string
}.
End Quality.

(** [\s] on a character below 256 (Python's [str.isspace]). *)
Definition is_space (c : ascii) : bool :=
  let n := nat_of_ascii c in
  ((9 <=? n)%nat && (n <=? 13)%nat) || ((28 <=? n)%nat && (n <=? 32)%nat)
  || (n =? 133)%nat || (n =? 160)%nat.

Fixpoint skip_spaces (s : string) : string :=
  match s with
  | String c s' => if is_space c then skip_spaces s' else s
  | EmptyString => s
  end.

(** [s] without the prefix [p], when it starts with it. *)
Fixpoint strip_prefix (p s : string) : option string :=
  match p, s with
  | EmptyString, _ => Some s
  | String a p', String b s' => if Ascii.eqb a b then strip_prefix p' s' else None
  | String _ _, EmptyString => None
  end.

Definition fence : string := "```".

(** [.*?\}\s*```], read after the opening brace: the text up to the first
    closing brace that only spaces separate from a fence. *)
Fixpoint close_fenced (s : string) : option string :=
  match s with
  | EmptyString => None
  | String c s' =>
      if Ascii.eqb c "}" && is_not_None (strip_prefix fence (skip_spaces s'))
      then Some "}"
      else option_map (String c) (close_fenced s')
  end.

(** A match of [```(?:json)?\s*(\{.*?\})\s*```] that starts where [s]
    starts; the result is group 1. *)
Definition match_fenced (s : string) : option string :=
  match strip_prefix fence s with
  | None => None
  | Some s1 =>
      let s2 := get (strip_prefix "json" s1) s1 in
      match skip_spaces s2 with
      | String "{" s3 => option_map (String "{") (close_fenced s3)
      | _ => None
      end
  end.

(** [re.search(r'```(?:json)?\s*(\{.*?\})\s*```', text, re.DOTALL)], group 1 *)
Fixpoint search_fenced (s : string) : option string :=
  match match_fenced s with
  | Some g => Some g
  | None =>
      match s with
      | EmptyString => None
      | String _ s' => search_fenced s'
      end
  end.

(** The longest prefix of [s] that ends with a closing brace. *)
Fixpoint up_to_last_brace (s : string) : option string :=
  match s with
  | EmptyString => None
  | String c s' =>
      match up_to_last_brace s' with
      | Some r => Some (String c r)
      | None => if Ascii.eqb c "}" then Some "}" else None
      end
  end.

(** [re.search(r'\{.*\}', text, re.DOTALL)], group 0 *)
Fixpoint search_object (s : string) : option string :=
  match s with
  | EmptyString => None
  | String c s' =>
      if Ascii.eqb c "{" then
        match up_to_last_brace s' with
        | Some r => Some (String "{" r)
        | None => search_object s'
        end
      else search_object s'
  end.

(** Lift a pure Python result into [M]. *)
Definition lift {A} (r : result A) : M A := fun w => (r, w).

(** [self.llm.acomplete(prompt)] followed by [str(response)].  The prompt,
    an f-string over the query and the context, only reaches the
    completion service, whose replies the world holds. *)
Definition acomplete (query context : string) : M string :=
  fun w =>
    match completions w with
    | [] => (Return "", w)
    | r :: rest => (r, set_completions w rest)
    end.

Definition key_is (key : string) (entry : string * Json) : bool :=
  String.eqb (fst entry) key.

(** [type(v).__name__] *)
Definition type_name (v : Json) : string :=
  match v with
  | JNull => "NoneType"
  | JBool _ => "bool"
  | JInt _ => "int"
  | JFloat _ => "float"
  | JStr _ => "str"
  | JList _ => "list"
  | JDict _ => "dict"
  end.

(** [result.get(key, default)]; only a dict has [get].  On anything else
    the attribute lookup raises [AttributeError], whose text names the
    type of the value. *)
Definition dict_get (v : Json) (key : string) (default : Json) : result Json :=
  match v with
  | JDict d =>
      Return (match find (key_is key) d with
              | Some entry => snd entry
              | None => default
              end)
  | _ => Raise ("'" ++ type_name v ++ "' object has no attribute 'get'")%string
  end.

(** The text that [_extract_json] hands to [json.loads]: group 1 of the
    fenced pattern, else group 0 of the brace pattern, else the text. *)
Definition json_text (text : string) : string :=
  match search_fenced text with
  | Some group1 => group1
  | None =>
      match search_object text with
      | Some group0 => group0
      | None => text
      end
  end.

Section Evaluator.

(** Python's own [json.loads], [float(int)] and [float(str)]. *)
Variable json_loads : string -> Loads.
Variable float_of_int : Z -> result float.
Variable float_of_str : string -> result float.

Definition _extract_json (text : string) : result Json :=
  match json_loads (json_text text) with
  | Loaded v => Return v
  | JSONDecodeError => Return (JDict [])   (* return {} *)
  | OtherError e => Raise e
  end.

(** [float(x)] *)
Definition float_ (x : Json) : result float :=
  match x with
  | JFloat f => Return f
  | JInt z => float_of_int z
  | JBool b => Return (if b then 1 else 0)%float
  | JStr s => float_of_str s
  | JNull | JList _ | JDict _ =>
      Raise ("float() argument must be a string or a real number, not '"
             ++ type_name x ++ "'")%string
  end.

Definition evaluate_relevance (query context : string) : M Relevance.t :=
  try_except
    (response <- acomplete query context ;;
     result <- lift (_extract_json response) ;;
     score <- lift (dict_get result "score" (JFloat 0)) ;;
     score <- lift (float_ score) ;;
     explanation <- lift (dict_get result "explanation" (JStr "")) ;;
     key_points <- lift (dict_get result "key_points" (JList [])) ;;
     ret (Relevance.mk score explanation key_points))
    (fun e =>
       ret (Relevance.mk 0 (JStr ("Evaluation error: " ++ e)%string) (JList []))).

Definition evaluate_completeness (query context : string) : M Completeness.t :=
  try_except
    (response <- acomplete query context ;;
     result <- lift (_extract_json response) ;;
     score <- lift (dict_get result "score" (JFloat 0)) ;;
     score <- lift (float_ score) ;;
     explanation <- lift (dict_get result "explanation" (JStr "")) ;;
     missing_aspects <- lift (dict_get result "missing_aspects" (JList [])) ;;
     ret (Completeness.mk score explanation missing_aspects))
    (fun e =>
       ret (Completeness.mk 0 (JStr ("Evaluation error: " ++ e)%string) (JList []))).

Definition _get_recommendation (score : float) : string :=
  if (0.8 <=? score)%float then
    "High quality context - suitable for use"
  else if (0.6 <=? score)%float then
    "Moderate quality - may need additional context"
  else if (0.4 <=? score)%float then
    "Low quality - consider refining query or adding more sources"
  else
    "Poor quality - context may not be relevant or complete".

Definition evaluate_quality (query context : string) : M Quality.t :=
  relevance <- evaluate_relevance query context ;;
  completeness <- evaluate_completeness query context ;;
  let overall_score :=
    (Relevance.relevance_score relevance * 0.6
     + Completeness.completeness_score completeness * 0.4)%float in
  ret (Quality.mk overall_score relevance completeness
                  (_get_recommendation overall_score)).

End Evaluator.

(* ================================================================== *)
(** * mcp_tools.py: [CalculatorMCPTool] *)

Module CalculatorMCPTool.
Section Execute.

(** Python's [eval] on the expression, with the value already printed as
    [f"{result}"] prints it, or the exception it raised as [str(e)]. *)
Variable py_eval : string -> result string.

Definition allowed_chars : list ascii :=
  list_ascii_of_string "0123456789+-*/.() ".

(** [all(c in allowed_chars for c in expression)] *)
Definition all_allowed (expression : string) : bool :=
  forallb (fun c => existsb (Ascii.eqb c) allowed_chars)
          (list_ascii_of_string expression).

(** The body of the [try]. *)
Definition execute_body (expression : string) : result string :=
  if negb (all_allowed expression) then
    Return "Error: Invalid characters in expression"
  else
    match py_eval expression with
    | Return printed => Return ("Result: " ++ printed)%string
    | Raise e => Raise e
    end.

Definition execute (expression : string) : result string :=
  match execute_body expression with
  | Return s => Return s
  | Raise e =>
      Return ("Error calculating '" ++ expression ++ "': " ++ e)%string
  end.

End Execute.
End CalculatorMCPTool.

(* ================================================================== *)
(** * Vocabulary of the properties *)

(** What no write to an existing row may change. *)
Definition stable (r : DocumentMetadata.t)
  : Z * string * string * string * string * option datetime :=
  (DocumentMetadata.id r, DocumentMetadata.filename r, DocumentMetadata.doc_id r,
   DocumentMetadata.mime_type r, DocumentMetadata.file_path r,
   DocumentMetadata.creation_date r).

(** A row refreshed from several documents in turn. *)
Definition refresh_all (docs : list Document) (r : DocumentMetadata.t)
  : DocumentMetadata.t :=
  fold_left (fun r doc => refresh doc r) docs r.

(** The last [modified_at] entry among the metadata of [docs], if any. *)
Definition last_modified_at (docs : list Document) (old : option datetime)
  : option datetime :=
  fold_left (fun t doc => match Metadata.modified_at (metadata doc) with
                          | Some t' => Some t'
                          | None => t
                          end) docs old.

(** The last [file_size] entry among the metadata of [docs], if any. *)
Definition last_file_size (docs : list Document) (old : Z) : Z :=
  fold_left (fun n doc => get (Metadata.file_size (metadata doc)) n) docs old.

(** The index once [update_ref_doc] was called with each of [docs] in
    turn, every one of them tagged with the identifier [x]. *)
Definition resubmitted (x : string) (docs : list Document) (i : Index) : Index :=
  fold_left (fun i doc =>
               filter (fun e => negb (ref_doc_is x e)) i ++ [(x, text doc)])
            docs i.

(** Everything but the metadata table, its key counter, the commit script
    and the call log is the same in [w] and [w']. *)
Definition outside_db (w w' : World) : Prop :=
  index w' = index w /\ disk w' = disk w /\
  agent_instance w' = agent_instance w /\
  index_faults w' = index_faults w /\ disk_faults w' = disk_faults w /\
  load_data_results w' = load_data_results w /\
  completions w' = completions w.

(** Everything but the vector index, its fault script and the call log
    is the same in [w] and [w']. *)
Definition outside_index (w w' : World) : Prop :=
  table w' = table w /\ next_id w' = next_id w /\ disk w' = disk w /\
  agent_instance w' = agent_instance w /\
  commit_faults w' = commit_faults w /\ disk_faults w' = disk_faults w /\
  load_data_results w' = load_data_results w /\
  completions w' = completions w.

Definition is_commit (c : Call * bool) : Prop := fst c = DbCommit.
Definition succeeded (c : Call * bool) : Prop := snd c = true.
Definition failed (c : Call * bool) : Prop := snd c = false.
Definition is_insert (c : Call * bool) : Prop := exists x, fst c = IndexInsert x.

(** The world once the upload is written to the data folder. *)
Definition saved (f : UploadFile) (w : World) : World :=
  set_disk (set_disk_faults w (tl (disk_faults w)))
           (write_file (data_path (filename f)) (file f) (disk w)).

(** The documents the next [load_data()] returns. *)
Definition next_documents (w : World) : list Document :=
  match load_data_results w with
  | Return docs :: _ => docs
  | _ => []
  end.

(** The world after a series of [PUT /update/] requests. *)
Definition after_updates (fs : list UploadFile) (w : World) : World :=
  fold_left (fun w f => snd (update_file f w)) fs w.

(** [response[key]], when the response has the key. *)
Definition field (key : string) (resp : Response) : option string :=
  option_map snd (find (fun entry => String.eqb (fst entry) key) resp).

(** The operations of the synchronisation protocol and the endpoints that
    carry them out. *)
Inductive Operation : Type :=
| AddDocument (f : UploadFile)
| UpdateDocument (f : UploadFile)
| DeleteDocument (name : string).

Definition perform (op : Operation) : M Response :=
  match op with
  | AddDocument f => upload_file f
  | UpdateDocument f => update_file f
  | DeleteDocument name => delete_file_endpoint name
  end.

(** The message with which each endpoint reports success. *)
Definition success_message (op : Operation) : string :=
  match op with
  | AddDocument _ => "File saved and indexed successfully"
  | UpdateDocument _ => "File updated and re-indexed successfully"
  | DeleteDocument _ => "File deleted successfully from disk and vector store."
  end.

Definition reports_success (op : Operation) (resp : Response) : Prop :=
  field "message" resp = Some (success_message op).


(* ================================================================== *)
(** * Sample inputs *)

Definition essay_metadata : Metadata.t :=
  Metadata.mk (Some "essay.txt") (Some "text/plain") (Some "data/essay.txt")
              (Some 5%Z) (Some 100%Z) None None.

Definition essay_document : Document :=
  mkDocument "doc-1" "hello" essay_metadata.

Definition essay_row : DocumentMetadata.t :=
  DocumentMetadata.mk 1 "essay.txt" "doc-1" "text/plain" "data/essay.txt" 5
                      (Some 100%Z) (Some 90%Z) (Some 90%Z).

Definition essay_upload : UploadFile := mkUploadFile "essay.txt" "hello".

(** A running service with nothing stored, started at time 90; the
    reader is about to read the essay. *)
Definition empty_world : World :=
  mkWorld [] 1 [] [] true [] [] [] [] [Return [essay_document]] [] 90%Z.

(** The same service once the essay is stored and indexed. *)
Definition essay_world : World :=
  mkWorld [essay_row] 2 [("doc-1", "hello")] [("data/essay.txt", "hello")]
          true [] [] [] [] [Return [essay_document]] [] 90%Z.

(** The essay read again after an edit: the reader draws a new
    identifier and reports a size and a modification time. *)
Definition essay_revision : Document :=
  mkDocument "doc-2" "hello!"
    (Metadata.mk (Some "essay.txt") (Some "text/plain") (Some "data/essay.txt")
                 (Some 6%Z) (Some 100%Z) (Some 250%Z) None).

Definition essay_revision_upload : UploadFile := mkUploadFile "essay.txt" "hello!".

(** The essay is stored and the reader is about to read its revision. *)
Definition revision_world : World :=
  set_load_data_results essay_world [Return [essay_revision]].

(** [essay_world] after the essay was deleted. *)
Definition essay_deleted_world : World :=
  mkWorld [] 2 [] [] true
          [(IndexDeleteRefDoc "doc-1", true); (DbCommit, true)]
          [] [] [] [Return [essay_document]] [] 90%Z.

(** [revision_world] after the revision was sent to [PUT /update/]. *)
Definition essay_revised_world : World :=
  mkWorld
    [DocumentMetadata.mk 1 "essay.txt" "doc-1" "text/plain" "data/essay.txt" 6
                         (Some 100%Z) (Some 250%Z) (Some 90%Z)]
    2 [("doc-1", "hello!")] [("data/essay.txt", "hello!")] true
    [(IndexUpdateRefDoc "doc-1", true); (DbCommit, true); (DbCommit, true)]
    [] [] [] [] [] 90%Z.

(** The double quote character, for JSON texts. *)
Definition dq : string := String (ascii_of_nat 34) EmptyString.

(** Two replies of the completion service that are JSON objects, and one
    that is prose. *)
Definition reply_score_09 : string :=
  ("{" ++ dq ++ "score" ++ dq ++ ": 0.9}")%string.
Definition reply_score_07 : string :=
  ("{" ++ dq ++ "score" ++ dq ++ ": 0.7}")%string.
Definition reply_prose : string := "I cannot grade this.".

(** A decoder that agrees with [json.loads] on the three replies above
    and on a one-element JSON array. *)
Definition sample_json_loads (text : string) : Loads :=
  if String.eqb text reply_score_09 then Loaded (JDict [("score", JFloat 0.9)])
  else if String.eqb text reply_score_07 then Loaded (JDict [("score", JFloat 0.7)])
  else if String.eqb text "[1]" then Loaded (JList [JInt 1])
  else JSONDecodeError.

(** [float(int)] on a small natural number. *)
Definition sample_float_of_int (z : Z) : result float :=
  Return (PrimFloat.of_uint63 (Uint63.of_Z z)).

(** [float(str)] on a string that is not a number. *)
Definition sample_float_of_str (s : string) : result float :=
  Raise ("could not convert string to float: '" ++ s ++ "'")%string.

(** The completion service is about to send the two JSON replies. *)
Definition grading_world : World :=
  set_completions empty_world [Return reply_score_09; Return reply_score_07].


(** An evaluator for the calculator that knows one sum and fails on
    everything else the way [eval] fails on a malformed expression. *)
Definition sample_eval (expression : string) : result string :=
  if String.eqb expression "2 + 2" then Return "4"
  else Raise "invalid syntax".


(** [essay_world] before the agent is initialised. *)
Definition essay_world_without_agent : World :=
  mkWorld [essay_row] 2 [("doc-1", "hello")] [("data/essay.txt", "hello")]
          false [] [] [] [] [Return [essay_document]] [] 90%Z.

(** The answer of [GET /files/]: [{"files": files}], or the error. *)
Inductive FilesResponse : Type :=
| Files (files : list string)
| FilesFailed (error : string).

(** [list_files]: [db.execute(select(DocumentMetadata.filename))
    .scalars().all()], the file name of every row. *)
Definition list_files : M FilesResponse :=
  try_except
    (fun w => (Return (Files (map DocumentMetadata.filename (table w))), w))
    (fun e => ret (FilesFailed e)).

(** [d.get(key, default)] on a decoded JSON object. *)
Definition entry (d : list (string * Json)) (key : string) (default : Json) : Json :=
  match find (key_is key) d with
  | Some e => snd e
  | None => default
  end.

(** A reply that is a JSON object whose score is 7.5, and its decoding. *)
Definition reply_score_75 : string :=
  ("{" ++ dq ++ "score" ++ dq ++ ": 7.5}")%string.

Definition overrating_json_loads (text : string) : Loads :=
  if String.eqb text reply_score_75 then Loaded (JDict [("score", JFloat 7.5)])
  else JSONDecodeError.

Definition overrating_world : World :=
  set_completions empty_world [Return reply_score_75; Return reply_score_75].

(** The character [c] occurs in the text [s]. *)
Definition occurs (c : ascii) (s : string) : Prop :=
  In c (list_ascii_of_string s).

(* ================================================================== *)
(** * agent.py and main.py: an answer with its evaluation *)

(** The answer of [POST /ask-with-evaluation/]: the response with its
    evaluation and the status success, or the error and the status
    failed. *)
Inductive AskResponse : Type :=
| Answered (response : string) (evaluation : Quality.t)
| AskFailed (error : string).

Section Ask.

Variable json_loads : string -> Loads.
Variable float_of_int : Z -> result float.
Variable float_of_str : string -> result float.

(** [str(await self.agent.run(query))]: the agent works on the world as
    it likes, and answers or raises. *)
Variable agent_run : string -> M string.

Definition get_response_with_evaluation (query : string)
  : M (string * Quality.t) :=
  response_str <- agent_run query ;;
  evaluation <- evaluate_quality json_loads float_of_int float_of_str
                                 query response_str ;;
  ret (response_str, evaluation).

Definition ask_with_evaluation (message : string) : M AskResponse :=
  try_except
    (agent <- read_agent_instance ;;
     if negb agent then ret (AskFailed "Agent not initialized")
     else
       result <- get_response_with_evaluation message ;;
       ret (Answered (fst result) (snd result)))
    (fun e => ret (AskFailed e)).

End Ask.

(** An agent that gives one answer and leaves the world alone, and a
    world in which both calls of the completion service fail. *)
Definition sample_agent_run (query : string) : M string :=
  ret "It is about greetings.".

Definition failing_grader_world : World :=
  set_completions essay_world [Raise "timeout"; Raise "rate limit"].

(* ================================================================== *)
(** * mcp_tools.py: [FileSystemMCPTool] *)

Module FileSystemMCPTool.
Section Execute.

(** [f.read()] on a file opened with [open(path, "r", encoding="utf-8")]:
    the text that the bytes of the file decode to, or the exception of
    the decoder. *)
Variable read_text : string -> result string.

Definition newline : string := String (ascii_of_nat 10) EmptyString.

(** [with open(data_path, "r", encoding="utf-8") as f: content = f.read()] *)
Definition open_and_read (p : Path) : M string :=
  fun w =>
    match find (path_is p) (disk w) with
    | Some entry => (read_text (snd entry), w)
    | None =>
        (Raise ("[Errno 2] No such file or directory: '" ++ p ++ "'")%string, w)
    end.

Definition execute (filepath : string) : M string :=
  try_except
    (let data_path := data_path filepath in
     present <- path_exists data_path ;;
     if negb present then
       ret ("Error: File " ++ filepath ++ " not found in data directory")%string
     else
       content <- open_and_read data_path ;;
       ret ("File contents of " ++ filepath ++ ":" ++ newline ++ content)%string)
    (fun e => ret ("Error reading file " ++ filepath ++ ": " ++ e)%string).

End Execute.
End FileSystemMCPTool.

(** A plain file name: not empty, not [.] or [..] and without a
    separator.  [Path("data") / name] is then an entry of the data
    folder, printed as [data_path name]; other names may lead to the
    data folder itself or out of it. *)
Definition plain_name (name : string) : bool :=
  negb (String.eqb name "") && negb (String.eqb name ".")
  && negb (String.eqb name "..")
  && negb (existsb (Ascii.eqb "/") (list_ascii_of_string name)).

(** A decoder that knows the bytes of the essay and refuses the rest. *)
Definition sample_read_text (bytes : string) : result string :=
  if String.eqb bytes "hello" then Return "hello"
  else Raise "'utf-8' codec can't decode byte 0xff in position 0: invalid start byte".
(* ================================================================== *)
(** * Basic facts about the metadata store *)

Ltac inv H := inversion H; subst; clear H.

Lemma outside_db_refl w : outside_db w w.
Proof. repeat split. Qed.

Lemma outside_db_trans w1 w2 w3 :
  outside_db w1 w2 -> outside_db w2 w3 -> outside_db w1 w3.
Proof.
  unfold outside_db. intros (a1 & a2 & a3 & a4 & a5 & a6 & a7) (b1 & b2 & b3 & b4 & b5 & b6 & b7).
  repeat split; congruence.
Qed.

Lemma outside_index_refl w : outside_index w w.
Proof. repeat split. Qed.

Lemma outside_index_trans w1 w2 w3 :
  outside_index w1 w2 -> outside_index w2 w3 -> outside_index w1 w3.
Proof.
  unfold outside_index.
  intros (a1 & a2 & a3 & a4 & a5 & a6 & a7 & a8) (b1 & b2 & b3 & b4 & b5 & b6 & b7 & b8).
  repeat split; congruence.
Qed.

Lemma find_is_not_None {A} (p : A -> bool) (l : list A) :
  is_not_None (find p l) = existsb p l.
Proof.
  induction l as [|a l IH]; simpl; [reflexivity|].
  destruct (p a); simpl; [reflexivity | exact IH].
Qed.

Lemma refresh_stable doc r : stable (refresh doc r) = stable r.
Proof. reflexivity. Qed.

Lemma refresh_all_stable docs : forall r, stable (refresh_all docs r) = stable r.
Proof.
  induction docs as [|d docs IH]; intros r; simpl; [reflexivity|].
  unfold refresh_all in *. simpl. rewrite IH. apply refresh_stable.
Qed.

Lemma stable_has_doc_id x r r' : stable r' = stable r -> has_doc_id x r' = has_doc_id x r.
Proof. unfold stable, has_doc_id. intros H. inv H. congruence. Qed.

Lemma stable_has_filename n r r' : stable r' = stable r -> has_filename n r' = has_filename n r.
Proof. unfold stable, has_filename. intros H. inv H. congruence. Qed.

Lemma refresh_all_modified_at docs : forall r,
  DocumentMetadata.modified_at (refresh_all docs r)
  = last_modified_at docs (DocumentMetadata.modified_at r).
Proof.
  unfold refresh_all, last_modified_at.
  induction docs as [|d docs IH]; intros r; simpl; [reflexivity|].
  rewrite IH. reflexivity.
Qed.

Lemma refresh_all_size docs : forall r,
  DocumentMetadata.size (refresh_all docs r)
  = last_file_size docs (DocumentMetadata.size r).
Proof.
  unfold refresh_all, last_file_size.
  induction docs as [|d docs IH]; intros r; simpl; [reflexivity|].
  rewrite IH. reflexivity.
Qed.

Lemma update_first_stable p f rows :
  (forall r, stable (f r) = stable r) ->
  map stable (update_first p f rows) = map stable rows.
Proof.
  intros Hf. induction rows as [|r rows IH]; simpl; [reflexivity|].
  destruct (p r); simpl; [rewrite Hf; reflexivity | rewrite IH; reflexivity].
Qed.

Lemma update_first_id p rows : update_first p (refresh_all []) rows = rows.
Proof.
  induction rows as [|r rows IH]; simpl; [reflexivity|].
  destruct (p r); [reflexivity | rewrite IH; reflexivity].
Qed.

Lemma update_first_twice x f g rows :
  (forall r, stable (f r) = stable r) ->
  update_first (has_doc_id x) g (update_first (has_doc_id x) f rows)
  = update_first (has_doc_id x) (fun r => g (f r)) rows.
Proof.
  intros Hf. induction rows as [|r rows IH]; simpl; [reflexivity|].
  destruct (has_doc_id x r) eqn:E; simpl.
  - rewrite (stable_has_doc_id x r (f r) (Hf r)), E. reflexivity.
  - rewrite E, IH. reflexivity.
Qed.

Lemma update_first_existsb x f rows :
  (forall r, stable (f r) = stable r) ->
  existsb (has_doc_id x) (update_first (has_doc_id x) f rows)
  = existsb (has_doc_id x) rows.
Proof.
  intros Hf. induction rows as [|r rows IH]; simpl; [reflexivity|].
  destruct (has_doc_id x r) eqn:E; simpl.
  - rewrite (stable_has_doc_id x r (f r) (Hf r)), E. reflexivity.
  - rewrite E, IH. reflexivity.
Qed.

(** Looking a file name up only depends on the stable part of the rows. *)
Lemma find_filename_stable n rows rows' :
  map stable rows' = map stable rows ->
  option_map stable (find (has_filename n) rows')
  = option_map stable (find (has_filename n) rows).
Proof.
  revert rows'. induction rows as [|r rows IH]; intros [|r' rows'] H; simpl in *;
    try discriminate; [reflexivity|].
  assert (Hr : stable r' = stable r) by congruence.
  assert (Hrows : map stable rows' = map stable rows) by congruence.
  rewrite (stable_has_filename n r r' Hr).
  destruct (has_filename n r); simpl; [congruence | auto].
Qed.

(** ** [db.commit()] *)

Lemma commit_inv new change w r w' :
  commit new change w = (r, w') ->
  outside_db w w' /\
  ((r = Return tt /\ calls w' = calls w ++ [(DbCommit, true)] /\
    next_fault (commit_faults w) = false /\
    table w' = change (table w) ++ insert_rows (next_id w) (import_time w) new)
   \/
   ((exists e, r = Raise e) /\ calls w' = calls w ++ [(DbCommit, false)] /\
    table w' = table w /\ next_id w' = next_id w)).
Proof.
  unfold commit. intros H.
  destruct (next_fault (commit_faults w)) eqn:F.
  - inv H. split; [repeat split|]. right. repeat split. eauto.
  - destruct (unique_doc_ids (change (table w)) new); inv H.
    + split; [repeat split|]. left. repeat split.
    + split; [repeat split|]. right. repeat split. eauto.
Qed.

(** A commit with nothing to insert only fails on a database fault. *)
Lemma commit_change_inv change w r w' :
  commit [] change w = (r, w') ->
  commit_faults w' = tl (commit_faults w) /\
  ((r = Return tt /\ table w' = change (table w))
   \/ ((exists e, r = Raise e) /\ table w' = table w /\ In true (commit_faults w))).
Proof.
  unfold commit. intros H. simpl in H.
  destruct (commit_faults w) as [|[|] faults] eqn:F; simpl in H; inv H; simpl;
    (split; [reflexivity|]).
  - left. rewrite app_nil_r. auto.
  - right. eauto.
  - left. rewrite app_nil_r. auto.
Qed.

Lemma in_tl {A} (a : A) l : In a (tl l) -> In a l.
Proof. destruct l; simpl; auto. Qed.

Lemma commit_nothing_table w r w' :
  commit [] no_change w = (r, w') -> table w' = table w.
Proof.
  intros H. apply commit_inv in H. destruct H as (_ & [(_ & _ & _ & T) | (_ & _ & T & _)]).
  - rewrite T. unfold no_change. simpl. apply app_nil_r.
  - exact T.
Qed.


(** ** [create_document_session] *)

Lemma session_loop_cons doc docs new w :
  session_loop (doc :: docs) new w =
  if existsb (has_doc_id (doc_id doc)) (table w) then
    match find (has_doc_id (doc_id doc)) (table w) with
    | Some _ =>
        match commit new (update_first (has_doc_id (doc_id doc)) (refresh doc)) w with
        | (Return _, w1) => session_loop docs [] w1
        | (Raise e, w1) => (Raise e, w1)
        end
    | None => session_loop docs new w
    end
  else session_loop docs (new ++ [new_row doc]) w.
Proof.
  simpl. unfold bind, check_document_exists_with_doc_id, query_first, bind, ret.
  rewrite find_is_not_None.
  destruct (existsb (has_doc_id (doc_id doc)) (table w)); simpl; [|reflexivity].
  destruct (find (has_doc_id (doc_id doc)) (table w)); reflexivity.
Qed.

Lemma session_loop_calls docs : forall new w r w',
  session_loop docs new w = (r, w') ->
  outside_db w w' /\ exists l, calls w' = calls w ++ l /\ Forall is_commit l.
Proof.
  induction docs as [|doc docs IH]; intros new w r w' H.
  - inv H. split; [apply outside_db_refl|]. exists []. rewrite app_nil_r. auto.
  - rewrite session_loop_cons in H.
    destruct (existsb (has_doc_id (doc_id doc)) (table w)); [|eauto].
    destruct (find (has_doc_id (doc_id doc)) (table w)); [|eauto].
    destruct (commit new _ w) as [rc w1] eqn:C.
    apply commit_inv in C. destruct C as (O & C).
    assert (exists ok, calls w1 = calls w ++ [(DbCommit, ok)]) as (ok & K).
    { destruct C as [(_ & K & _) | (_ & K & _)]; eauto. }
    destruct rc as [[]|e].
    + apply IH in H. destruct H as (O' & l & L & F).
      split; [eapply outside_db_trans; eauto|].
      exists ((DbCommit, ok) :: l). rewrite L, K, <- app_assoc. split; [reflexivity|].
      constructor; [reflexivity | exact F].
    + inv H. split; [exact O|]. exists [(DbCommit, ok)]. split; [exact K|].
      constructor; [reflexivity | constructor].
Qed.

Lemma create_document_session_calls docs w r w' :
  create_document_session docs w = (r, w') ->
  r = Return tt /\ outside_db w w' /\
  exists l, calls w' = calls w ++ l /\ Forall is_commit l.
Proof.
  unfold create_document_session, try_except, bind. intros H.
  destruct (session_loop docs [] w) as [rl w1] eqn:L.
  apply session_loop_calls in L. destruct L as (O & l & K & F).
  destruct rl as [new|e].
  - destruct (commit new no_change w1) as [rc w2] eqn:C.
    apply commit_inv in C. destruct C as (O' & C).
    assert (exists ok, calls w2 = calls w1 ++ [(DbCommit, ok)]) as (ok & K').
    { destruct C as [(_ & K' & _) | (_ & K' & _)]; eauto. }
    assert (w' = w2 /\ r = Return tt) as (-> & ->).
    { destruct rc as [[]|e]; unfold ret in H; inv H; auto. }
    split; [reflexivity|]. split; [eapply outside_db_trans; eauto|].
    exists (l ++ [(DbCommit, ok)]). rewrite K', K, app_assoc. split; [reflexivity|].
    apply Forall_app. split; [exact F|]. constructor; [reflexivity | constructor].
  - unfold ret in H. inv H. split; [reflexivity|]. split; [exact O|]. eauto.
Qed.

(** The session of an update: every document carries the identifier [x]
    of a stored row; the row is refreshed from the documents in turn, up
    to the first commit that fails. *)
Lemma session_loop_refresh x docs : forall w r w',
  existsb (has_doc_id x) (table w) = true ->
  Forall (fun doc => doc_id doc = x) docs ->
  session_loop docs [] w = (r, w') ->
  exists k,
    (k = length docs /\ r = Return [] \/
     In true (commit_faults w) /\ exists e, r = Raise e) /\
    (In true (commit_faults w') -> In true (commit_faults w)) /\
    table w' = update_first (has_doc_id x) (refresh_all (firstn k docs)) (table w).
Proof.
  induction docs as [|doc docs IH]; intros w r w' E D H.
  - inv H. exists 0%nat. simpl. rewrite update_first_id. auto.
  - rewrite session_loop_cons in H. inversion D as [|? ? Dx D']; subst.
    rewrite E in H. pose proof E as E'. rewrite <- find_is_not_None in E'.
    destruct (find (has_doc_id (doc_id doc)) (table w)); [clear E'|discriminate].
    destruct (commit [] _ w) as [rc w1] eqn:C.
    apply commit_change_inv in C.
    destruct C as (CF & [(-> & T) | ((e & ->) & T & Fault)]).
    + destruct (IH w1 r w') as (k & Hk & Hf & T'); auto.
      { rewrite T. rewrite update_first_existsb by apply refresh_stable. exact E. }
      assert (Tl : In true (commit_faults w1) -> In true (commit_faults w)).
      { rewrite CF. apply in_tl. }
      exists (S k). split.
      { destruct Hk as [(-> & ->) | (Hk & R)]; [left; auto | right; auto]. }
      split; [auto|].
      rewrite T', T. rewrite update_first_twice by apply refresh_stable. reflexivity.
    + inv H. exists 0%nat. split; [right; eauto|]. split.
      { rewrite CF. apply in_tl. }
      simpl. rewrite update_first_id. exact T.
Qed.

Lemma create_document_session_refresh x docs w r w' :
  existsb (has_doc_id x) (table w) = true ->
  Forall (fun doc => doc_id doc = x) docs ->
  create_document_session docs w = (r, w') ->
  exists k, (k = length docs \/ In true (commit_faults w)) /\
    table w' = update_first (has_doc_id x) (refresh_all (firstn k docs)) (table w).
Proof.
  intros E D H. unfold create_document_session, try_except, bind in H.
  destruct (session_loop docs [] w) as [rl w1] eqn:L.
  destruct (session_loop_refresh x docs w rl w1 E D L) as (k & Hk & _ & T).
  exists k. split; [destruct Hk as [(-> & _) | (Hk & _)]; auto|].
  destruct Hk as [(_ & ->) | (_ & e & ->)].
  - destruct (commit [] no_change w1) as [rc w2] eqn:C.
    apply commit_nothing_table in C.
    assert (w' = w2) as -> by (destruct rc; unfold ret in H; inv H; reflexivity).
    congruence.
  - unfold ret in H. inv H. exact T.
Qed.


(* ================================================================== *)
(** * Basic facts about the vector index *)

Lemma index_call_inv c effect w r w' :
  index_call c effect w = (r, w') ->
  outside_index w w' /\
  ((r = Return tt /\ next_fault (index_faults w) = false /\
    calls w' = calls w ++ [(c, true)] /\ index w' = effect (index w))
   \/
   (r = Raise "index error" /\ next_fault (index_faults w) = true /\
    calls w' = calls w ++ [(c, false)] /\ index w' = index w)).
Proof.
  unfold index_call. intros H.
  destruct (next_fault (index_faults w)) eqn:F; inv H;
    (split; [repeat split|]); [right | left]; repeat split.
Qed.

(** A loop of index calls, one per document. *)
Lemma for_each_index_calls (call : Document -> Call)
    (effect : Document -> Index -> Index) docs :
  forall w r w',
  for_each docs (fun doc => index_call (call doc) (effect doc)) w = (r, w') ->
  outside_index w w' /\
  exists l, calls w' = calls w ++ l /\
    Forall (fun c => exists doc, In doc docs /\ fst c = call doc) l /\
    (r = Return tt -> Forall succeeded l) /\
    (forall e, r = Raise e -> Exists failed l).
Proof.
  induction docs as [|doc docs IH]; intros w r w' H.
  - inv H. split; [apply outside_index_refl|]. exists []. rewrite app_nil_r.
    repeat split; auto. discriminate.
  - simpl in H. unfold bind in H.
    destruct (index_call (call doc) (effect doc) w) as [rc w1] eqn:C.
    apply index_call_inv in C.
    destruct C as (O & [(-> & _ & K & _) | (-> & _ & K & _)]).
    + apply IH in H. destruct H as (O' & l & L & F & S & X).
      split; [eapply outside_index_trans; eauto|].
      exists ((call doc, true) :: l). rewrite L, K, <- app_assoc.
      repeat split.
      * constructor; [exists doc; simpl; auto|].
        eapply Forall_impl; [|exact F]. intros c (d & I & Hc). exists d. simpl; auto.
      * intros R. constructor; [reflexivity | auto].
      * intros e R. apply Exists_cons_tl. eauto.
    + inv H. split; [exact O|]. exists [(call doc, false)]. repeat split; auto.
      * constructor; [exists doc; simpl; auto | constructor].
      * discriminate.
      * intros e _. apply Exists_cons_hd. reflexivity.
Qed.

Lemma path_exists_after_write p bytes d :
  existsb (path_is p) (write_file p bytes d) = true.
Proof. unfold write_file, path_is. simpl. rewrite String.eqb_refl. reflexivity. Qed.

(* ================================================================== *)
(** * The three operations of the agent, step by step *)

Lemma add_file_context_to_agent_run p w :
  add_file_context_to_agent p w =
  if existsb (path_is p) (disk w) then
    match load_data p w with
    | (Return documents, w1) =>
        match for_each documents index_insert
                (snd (create_document_session documents w1)) with
        | (Return _, w3) => (Return true, w3)
        | (Raise e, w3) => (Raise e, w3)
        end
    | (Raise e, w1) => (Raise e, w1)
    end
  else (Return false, w).
Proof.
  unfold add_file_context_to_agent, bind, path_exists, ret.
  destruct (existsb (path_is p) (disk w)); [|reflexivity].
  destruct (load_data p w) as [[documents|e] w1]; [|reflexivity].
  destruct (create_document_session documents w1) as [rs w2] eqn:S.
  destruct (create_document_session_calls _ _ _ _ S) as (-> & _). simpl.
  destruct (for_each documents index_insert w2) as [[[]|e] w3]; reflexivity.
Qed.

Lemma update_file_context_in_agent_run p x w :
  update_file_context_in_agent p x w =
  if existsb (path_is p) (disk w) then
    match load_data p w with
    | (Return updated_documents, w1) =>
        match for_each updated_documents
                (fun doc => index_update_ref_doc (set_doc_id doc x)) w1 with
        | (Return _, w2) =>
            (Return true,
             snd (create_document_session
                    (map (fun doc => set_doc_id doc x) updated_documents) w2))
        | (Raise e, w2) => (Raise e, w2)
        end
    | (Raise e, w1) => (Raise e, w1)
    end
  else (Return false, w).
Proof.
  unfold update_file_context_in_agent, bind, path_exists, ret.
  destruct (existsb (path_is p) (disk w)); [|reflexivity].
  destruct (load_data p w) as [[documents|e] w1]; [|reflexivity].
  destruct (for_each documents _ w1) as [[[]|e] w2]; [|reflexivity].
  destruct (create_document_session _ w2) as [rs w3] eqn:S.
  destruct (create_document_session_calls _ _ _ _ S) as (-> & _). reflexivity.
Qed.

Lemma delete_document_metadata_by_doc_id_inv x w r w' :
  delete_document_metadata_by_doc_id x w = (r, w') ->
  (exists b, r = Return b) /\ outside_db w w' /\
  exists l, calls w' = calls w ++ l /\ Forall is_commit l.
Proof.
  unfold delete_document_metadata_by_doc_id, try_except, bind, query_first, ret.
  intros H. destruct (find (has_doc_id x) (table w)).
  - destruct (commit [] _ w) as [rc w1] eqn:C. apply commit_inv in C.
    destruct C as (O & C).
    assert (exists ok, calls w1 = calls w ++ [(DbCommit, ok)]) as (ok & K).
    { destruct C as [(_ & K & _) | (_ & K & _)]; eauto. }
    assert (w' = w1 /\ exists b, r = Return b) as (-> & R).
    { destruct rc; inv H; eauto. }
    split; [exact R|]. split; [exact O|]. exists [(DbCommit, ok)].
    split; [exact K|]. constructor; [reflexivity | constructor].
  - inv H. split; [eauto|]. split; [apply outside_db_refl|].
    exists []. rewrite app_nil_r. auto.
Qed.

Lemma delete_file_context_in_agent_run x w :
  delete_file_context_in_agent x w =
  match index_delete_ref_doc x w with
  | (Return _, w1) =>
      (Return true, snd (delete_document_metadata_by_doc_id x w1))
  | (Raise _, w1) => (Return false, w1)
  end.
Proof.
  unfold delete_file_context_in_agent, try_except, bind, ret.
  destruct (index_delete_ref_doc x w) as [[[]|e] w1]; [|reflexivity].
  destruct (delete_document_metadata_by_doc_id x w1) as [rd w2] eqn:D.
  destruct (delete_document_metadata_by_doc_id_inv _ _ _ _ D) as ((b & ->) & _).
  reflexivity.
Qed.


(* ================================================================== *)
(** * The endpoints *)

Lemma upload_file_run f w :
  find (has_filename (filename f)) (table w) = None ->
  next_fault (disk_faults w) = false ->
  agent_instance w = true ->
  upload_file f w =
  match add_file_context_to_agent (data_path (filename f)) (saved f w) with
  | (Return true, w') =>
      (Return (upload_indexed (filename f) (data_path (filename f))), w')
  | (Return false, w') =>
      (Return (upload_indexing_failed (filename f) (data_path (filename f))), w')
  | (Raise e, w') => (Return (upload_exception e), w')
  end.
Proof.
  intros N D A.
  cbv beta iota zeta delta [upload_file try_except bind ret query_first
    check_document_exists_with_filename save_file_to_data_folder
    read_agent_instance].
  rewrite N. cbv beta iota zeta delta [is_not_None]. rewrite D. cbv beta iota zeta delta [negb].
  fold (saved f w). replace (agent_instance (saved f w)) with true by (symmetry; exact A).
  destruct (add_file_context_to_agent _ (saved f w)) as [[[|]|e] w']; reflexivity.
Qed.

Lemma upload_file_other f w :
  (exists row, find (has_filename (filename f)) (table w) = Some row) \/
  next_fault (disk_faults w) = true \/ agent_instance w = false ->
  exists resp w', upload_file f w = (Return resp, w') /\
    calls w' = calls w /\ table w' = table w /\ index w' = index w /\
    ~ reports_success (AddDocument f) resp.
Proof.
  intros H.
  cbv beta iota zeta delta [upload_file try_except bind ret query_first
    check_document_exists_with_filename save_file_to_data_folder
    read_agent_instance].
  destruct (find (has_filename (filename f)) (table w)) as [row|] eqn:N.
  { cbv beta iota zeta delta [is_not_None]. do 2 eexists. repeat split; try (intros Q; discriminate Q). }
  cbv beta iota zeta delta [is_not_None].
  destruct (next_fault (disk_faults w)) eqn:D.
  { cbv beta iota zeta delta [negb]. do 2 eexists. repeat split; try (intros Q; discriminate Q). }
  cbv beta iota zeta delta [negb]. fold (saved f w).
  destruct H as [(row & H) | [H | H]]; try discriminate.
  replace (agent_instance (saved f w)) with false by (symmetry; exact H).
  do 2 eexists. repeat split; try (intros Q; discriminate Q).
Qed.

Lemma load_data_inv p w r w1 :
  load_data p w = (r, w1) ->
  calls w1 = calls w /\ table w1 = table w /\ index w1 = index w /\
  disk w1 = disk w /\ index_faults w1 = index_faults w /\
  commit_faults w1 = commit_faults w /\
  (load_data_results w = [] /\ r = Return [] \/
   exists rest, load_data_results w = r :: rest).
Proof.
  unfold load_data. intros H. destruct (load_data_results w) as [|r0 rest]; inv H.
  - repeat split. auto.
  - repeat split. eauto.
Qed.

Lemma add_file_context_to_agent_calls p w r w' :
  add_file_context_to_agent p w = (r, w') ->
  exists commits inserts,
    calls w' = calls w ++ commits ++ inserts /\
    Forall is_commit commits /\ Forall is_insert inserts /\
    ((exists b, r = Return b) -> Forall succeeded inserts) /\
    (Exists failed inserts -> exists e, r = Raise e).
Proof.
  rewrite add_file_context_to_agent_run. intros H.
  assert (Nil : exists commits inserts : list (Call * bool),
             calls w = calls w ++ commits ++ inserts /\
             Forall is_commit commits /\ Forall is_insert inserts /\
             ((exists b : bool, r = Return b) -> Forall succeeded inserts) /\
             (Exists failed inserts -> exists e, r = Raise e)).
  { exists [], []. simpl. rewrite app_nil_r. repeat split; auto.
    intros X. inversion X. }
  destruct (existsb (path_is p) (disk w)); [|inv H; exact Nil].
  destruct (load_data p w) as [[documents|e] w1] eqn:L;
    apply load_data_inv in L; destruct L as (K1 & _).
  - destruct (create_document_session documents w1) as [rs w2] eqn:S.
    simpl in H.
    apply create_document_session_calls in S. destruct S as (_ & _ & commits & K & F).
    destruct (for_each documents index_insert w2) as [r3 w3] eqn:I.
    apply for_each_index_calls in I. destruct I as (_ & inserts & K' & F' & S' & X').
    exists commits, inserts. rewrite K1 in K. rewrite app_assoc, <- K.
    assert (w' = w3) as -> by (destruct r3 as [[]|]; inv H; reflexivity).
    repeat split; auto.
    + eapply Forall_impl; [|exact F']. intros c (d & _ & Hc). exists (doc_id d). exact Hc.
    + intros (b & ->). destruct r3 as [[]|]; [auto | discriminate].
    + intros X. destruct r3 as [[]|e]; [|inv H; eauto].
      specialize (S' eq_refl). apply Exists_exists in X. destruct X as (c & Ic & Fc).
      rewrite Forall_forall in S'. specialize (S' c Ic). unfold failed, succeeded in *. congruence.
  - inv H. rewrite K1. destruct Nil as (c & i & K & R). exists c, i. split; [exact K|].
    destruct R as (R1 & R2 & R3 & R4). repeat split; auto.
Qed.


(** ** [PUT /update/] *)

Lemma update_file_run f w row :
  find (has_filename (filename f)) (table w) = Some row ->
  DocumentMetadata.doc_id row <> "" ->
  next_fault (disk_faults w) = false ->
  agent_instance w = true ->
  update_file f w =
  match update_file_context_in_agent (data_path (filename f))
          (DocumentMetadata.doc_id row) (saved f w) with
  | (Return true, w') =>
      (Return (update_reindexed (filename f) (data_path (filename f))), w')
  | (Return false, w') =>
      (Return (update_reindexing_failed (filename f) (data_path (filename f))), w')
  | (Raise e, w') => (Return (update_exception e), w')
  end.
Proof.
  intros N X D A. apply String.eqb_neq in X.
  cbv beta iota zeta delta [update_file try_except bind ret query_first
    check_document_exists_with_filename get_doc_id_from_filename
    save_file_to_data_folder read_agent_instance].
  rewrite N. cbv beta iota zeta delta [is_not_None negb].
  rewrite N. cbv beta iota zeta. rewrite X, D.
  cbv beta iota zeta delta [negb]. fold (saved f w).
  replace (agent_instance (saved f w)) with true by (symmetry; exact A).
  destruct (update_file_context_in_agent _ _ (saved f w)) as [[[|]|e] w']; reflexivity.
Qed.

Lemma update_file_other f w :
  find (has_filename (filename f)) (table w) = None \/
  (exists row, find (has_filename (filename f)) (table w) = Some row /\
               DocumentMetadata.doc_id row = "") \/
  next_fault (disk_faults w) = true \/ agent_instance w = false ->
  exists resp w', update_file f w = (Return resp, w') /\
    calls w' = calls w /\ table w' = table w /\ index w' = index w /\
    ~ reports_success (UpdateDocument f) resp.
Proof.
  intros H.
  cbv beta iota zeta delta [update_file try_except bind ret query_first
    check_document_exists_with_filename get_doc_id_from_filename
    save_file_to_data_folder read_agent_instance].
  destruct (find (has_filename (filename f)) (table w)) as [row|] eqn:N;
    cbv beta iota zeta delta [is_not_None negb].
  2:{ do 2 eexists. repeat split; try (intros Q; discriminate Q). }
  rewrite ?N. cbv beta iota zeta.
  destruct (String.eqb (DocumentMetadata.doc_id row) "") eqn:X.
  { do 2 eexists. repeat split; try (intros Q; discriminate Q). }
  destruct (next_fault (disk_faults w)) eqn:D; cbv beta iota zeta delta [negb].
  { do 2 eexists. repeat split; try (intros Q; discriminate Q). }
  fold (saved f w).
  destruct H as [H | [(row' & H & X') | [H | H]]]; try discriminate.
  - inv H. apply String.eqb_neq in X. contradiction.
  - replace (agent_instance (saved f w)) with false by (symmetry; exact H).
    do 2 eexists. repeat split; try (intros Q; discriminate Q).
Qed.

Lemma find_some_existsb {A} (p q : A -> bool) (l : list A) a :
  find p l = Some a -> q a = true -> existsb q l = true.
Proof.
  intros F Q. apply find_some in F. destruct F as (I & _).
  apply existsb_exists. eauto.
Qed.

Lemma map_doc_id_set x docs :
  Forall (fun doc => doc_id doc = x) (map (fun doc => set_doc_id doc x) docs).
Proof. induction docs; simpl; constructor; auto. Qed.

(** What [update_file_context_in_agent] does, whatever its outcome. *)
Lemma update_file_context_in_agent_inv p x w r w' :
  existsb (has_doc_id x) (table w) = true ->
  update_file_context_in_agent p x w = (r, w') ->
  exists updates commits k,
    calls w' = calls w ++ updates ++ commits /\
    Forall (fun c => fst c = IndexUpdateRefDoc x) updates /\
    Forall is_commit commits /\
    ((exists b, r = Return b) -> Forall succeeded updates) /\
    (r = Return true ->
     k = length (next_documents w) \/ In true (commit_faults w)) /\
    table w' =
      update_first (has_doc_id x)
        (refresh_all (firstn k (map (fun doc => set_doc_id doc x) (next_documents w))))
        (table w).
Proof.
  intros E. rewrite update_file_context_in_agent_run. intros H.
  assert (Nil : forall w1, calls w1 = calls w -> table w1 = table w ->
            (forall b, r <> Return b) \/ r = Return false ->
            exists updates commits k,
              calls w1 = calls w ++ updates ++ commits /\
              Forall (fun c => fst c = IndexUpdateRefDoc x) updates /\
              Forall is_commit commits /\
              ((exists b, r = Return b) -> Forall succeeded updates) /\
              (r = Return true ->
               k = length (next_documents w) \/ In true (commit_faults w)) /\
              table w1 =
                update_first (has_doc_id x)
                  (refresh_all (firstn k (map (fun doc => set_doc_id doc x) (next_documents w))))
                  (table w)).
  { intros w1 K T R. exists [], [], 0%nat. simpl. rewrite app_nil_r, update_first_id.
    repeat split; auto. intros ->. destruct R as [R | R]; [destruct (R true); reflexivity | discriminate]. }
  destruct (existsb (path_is p) (disk w)); [|inv H; apply Nil; auto].
  destruct (load_data p w) as [[docs|e] w1] eqn:L;
    apply load_data_inv in L; destruct L as (K1 & T1 & _ & _ & _ & C1 & L).
  2:{ inv H. apply Nil; auto. left. discriminate. }
  assert (ND : next_documents w = docs).
  { unfold next_documents. destruct L as [(-> & L) | (rest & ->)]; [inv L|]; reflexivity. }
  destruct (for_each docs _ w1) as [r2 w2] eqn:U.
  pose proof (for_each_index_calls
                (fun doc => IndexUpdateRefDoc (doc_id (set_doc_id doc x)))
                (fun doc i => filter (fun e => negb (ref_doc_is (doc_id (set_doc_id doc x)) e)) i
                              ++ [(doc_id (set_doc_id doc x), text (set_doc_id doc x))])
                docs w1 r2 w2 U) as (O & updates & K2 & F2 & S2 & _).
  destruct O as (T2 & _ & _ & _ & C2 & _).
  assert (FU : Forall (fun c => fst c = IndexUpdateRefDoc x) updates).
  { eapply Forall_impl; [|exact F2]. intros c (d & _ & Hc). exact Hc. }
  destruct r2 as [[]|e].
  - destruct (create_document_session _ w2) as [rs w3] eqn:S. simpl in H. inv H.
    pose proof (create_document_session_calls _ _ _ _ S) as (_ & _ & commits & K3 & F3).
    destruct (create_document_session_refresh x _ w2 _ _
                ltac:(rewrite T2, T1; exact E) (map_doc_id_set x _) S) as (k & Hk & T3).
    exists updates, commits, k. rewrite K3, K2, K1, <- app_assoc.
    repeat split; auto.
    + intros _. rewrite length_map, C2, C1 in Hk. exact Hk.
    + rewrite T3, T2, T1. reflexivity.
  - inv H. exists updates, [], 0%nat. simpl. rewrite app_nil_r, update_first_id.
    rewrite K2, K1, T2, T1. repeat split; auto.
    + intros (b & B). discriminate.
    + discriminate.
Qed.


(** ** [DELETE /delete/{filename}] *)

Lemma delete_from_disk_inv name w :
  exists w', delete_from_disk name w = (Return (delete_done name), w') /\
    calls w' = calls w /\ table w' = table w /\ index w' = index w.
Proof.
  unfold delete_from_disk, delete_file, bind, path_exists, ret.
  destruct (existsb _ (disk w)); eexists; repeat split.
Qed.

Lemma delete_file_endpoint_run name w row :
  find (has_filename name) (table w) = Some row ->
  DocumentMetadata.doc_id row <> "" ->
  agent_instance w = true ->
  delete_file_endpoint name w =
  match index_delete_ref_doc (DocumentMetadata.doc_id row) w with
  | (Return _, w1) =>
      delete_from_disk name
        (snd (delete_document_metadata_by_doc_id (DocumentMetadata.doc_id row) w1))
  | (Raise _, w1) => (Return (delete_index_failed name), w1)
  end.
Proof.
  intros N X A. apply String.eqb_neq in X.
  cbv beta iota zeta delta [delete_file_endpoint try_except bind ret query_first
    get_doc_id_from_filename read_agent_instance].
  rewrite N. cbv beta iota zeta. rewrite X, A.
  rewrite delete_file_context_in_agent_run.
  destruct (index_delete_ref_doc _ w) as [[[]|e] w1]; cbv beta iota zeta delta [negb].
  - destruct (delete_from_disk_inv name
               (snd (delete_document_metadata_by_doc_id (DocumentMetadata.doc_id row) w1)))
      as (w' & -> & _). reflexivity.
  - reflexivity.
Qed.

(* ================================================================== *)
(** * Properties of the synchronisation protocol *)

(** C2.  Deleting a stored document (a row with a non-empty identifier,
    the agent running) while the vector index refuses the deletion: the
    endpoint answers "Failed to delete from vector store.", and the
    metadata table, the files on disk and the index are as they were; the
    only store call made is the failed deletion. *)
Theorem delete_keeps_metadata_when_index_fails name w row :
  find (has_filename name) (table w) = Some row ->
  DocumentMetadata.doc_id row <> "" ->
  agent_instance w = true ->
  next_fault (index_faults w) = true ->
  exists w',
    delete_file_endpoint name w = (Return (delete_index_failed name), w') /\
    table w' = table w /\
    find (has_filename name) (table w') = Some row /\
    disk w' = disk w /\
    index w' = index w /\
    calls w' = calls w ++ [(IndexDeleteRefDoc (DocumentMetadata.doc_id row), false)].
Proof.
  intros N X A F.
  rewrite (delete_file_endpoint_run name w row N X A).
  destruct (index_delete_ref_doc (DocumentMetadata.doc_id row) w) as [r w1] eqn:I.
  unfold index_delete_ref_doc in I. apply index_call_inv in I.
  destruct I as ((T & _ & D & _) & [(_ & F' & _) | (-> & _ & K & Ix)]);
    [congruence|].
  exists w1. rewrite T. repeat split; auto.
Qed.

Lemma delete_keeps_metadata_when_index_fails_witness :
  find (has_filename "essay.txt") (table (set_index_faults essay_world [true]))
    = Some essay_row /\
  DocumentMetadata.doc_id essay_row <> "" /\
  agent_instance (set_index_faults essay_world [true]) = true /\
  next_fault (index_faults (set_index_faults essay_world [true])) = true /\
  exists w',
    delete_file_endpoint "essay.txt" (set_index_faults essay_world [true])
      = (Return (delete_index_failed "essay.txt"), w') /\
    table w' = [essay_row] /\
    find (has_filename "essay.txt") (table w') = Some essay_row /\
    disk w' = [("data/essay.txt", "hello")] /\
    index w' = [("doc-1", "hello")] /\
    calls w' = [(IndexDeleteRefDoc "doc-1", false)].
Proof.
  assert (X : DocumentMetadata.doc_id essay_row <> "") by (simpl; discriminate).
  repeat (split; [first [reflexivity | exact X]|]).
  exact (delete_keeps_metadata_when_index_fails "essay.txt"
           (set_index_faults essay_world [true]) essay_row
           eq_refl X eq_refl eq_refl).
Defined.

(** C4.  Uploading a file whose name already has a row: the endpoint
    answers "File already exist in database. Please use update." with
    status "failed", and the world is untouched: no store call, same
    tables, same index, same disk. *)
Theorem upload_existing_filename_fails f w row :
  find (has_filename (filename f)) (table w) = Some row ->
  upload_file f w = (Return (upload_already_exists (filename f)), w).
Proof.
  intros N.
  cbv beta iota zeta delta [upload_file try_except bind ret query_first
    check_document_exists_with_filename].
  rewrite N. reflexivity.
Qed.

Lemma upload_existing_filename_fails_witness :
  find (has_filename (filename essay_upload)) (table essay_world) = Some essay_row /\
  upload_file essay_upload essay_world
    = (Return [("filename", "essay.txt");
               ("error", "File already exist in database. Please use update.");
               ("status", "failed")],
       essay_world).
Proof.
  split; [reflexivity|].
  exact (upload_existing_filename_fails essay_upload essay_world essay_row eq_refl).
Defined.

(** C6.  Updating a file whose name has no row: the endpoint answers
    "File does not exist in database. Please upload first." and the world
    is untouched: nothing is written to the index, the table or the disk. *)
Theorem update_unknown_filename_fails f w :
  find (has_filename (filename f)) (table w) = None ->
  update_file f w = (Return (update_not_in_database (filename f)), w).
Proof.
  intros N.
  cbv beta iota zeta delta [update_file try_except bind ret query_first
    check_document_exists_with_filename].
  rewrite N. reflexivity.
Qed.

Lemma update_unknown_filename_fails_witness :
  find (has_filename (filename essay_upload)) (table empty_world) = None /\
  update_file essay_upload empty_world
    = (Return [("filename", "essay.txt");
               ("message", "File does not exist in database. Please upload first.")],
       empty_world).
Proof.
  split; [reflexivity|].
  exact (update_unknown_filename_fails essay_upload empty_world eq_refl).
Defined.


Lemma delete_file_endpoint_other name w :
  find (has_filename name) (table w) = None \/
  (exists row, find (has_filename name) (table w) = Some row /\
               DocumentMetadata.doc_id row = "") ->
  delete_file_endpoint name w = (Return (no_document_id name), w).
Proof.
  intros H.
  cbv beta iota zeta delta [delete_file_endpoint try_except bind ret query_first
    get_doc_id_from_filename].
  destruct H as [-> | (row & -> & X)]; [reflexivity|].
  cbv beta iota zeta. rewrite X. reflexivity.
Qed.

Lemma delete_file_endpoint_no_agent name w row :
  find (has_filename name) (table w) = Some row ->
  DocumentMetadata.doc_id row <> "" ->
  agent_instance w = false ->
  delete_file_endpoint name w = delete_from_disk name w.
Proof.
  intros N X A. apply String.eqb_neq in X.
  cbv beta iota zeta delta [delete_file_endpoint try_except bind ret query_first
    get_doc_id_from_filename read_agent_instance].
  rewrite N. cbv beta iota zeta. rewrite X, A.
  destruct (delete_from_disk_inv name w) as (w' & -> & _). reflexivity.
Qed.

Lemma index_calls_of_commits_and l1 l2 :
  Forall is_commit l1 -> Forall succeeded l2 ->
  forall c, In c (l1 ++ l2) -> is_index_call (fst c) = true -> succeeded c.
Proof.
  intros F1 F2 c I X. apply in_app_or in I. destruct I as [I | I].
  - rewrite Forall_forall in F1. specialize (F1 c I). unfold is_commit in F1.
    rewrite F1 in X. discriminate.
  - rewrite Forall_forall in F2. auto.
Qed.

Lemma index_calls_of_and_commits l1 l2 :
  Forall succeeded l1 -> Forall is_commit l2 ->
  forall c, In c (l1 ++ l2) -> is_index_call (fst c) = true -> succeeded c.
Proof.
  intros F1 F2 c I X. apply in_app_or in I. destruct I as [I | I].
  - rewrite Forall_forall in F1. auto.
  - rewrite Forall_forall in F2. specialize (F2 c I). unfold is_commit in F2.
    rewrite F2 in X. discriminate.
Qed.

Lemma upload_success_calls f resp w w' :
  upload_file f w = (Return resp, w') ->
  reports_success (AddDocument f) resp ->
  exists l, calls w' = calls w ++ l /\
    forall c, In c l -> is_index_call (fst c) = true -> succeeded c.
Proof.
  intros H Q.
  destruct (find (has_filename (filename f)) (table w)) as [row|] eqn:N.
  { destruct (upload_file_other f w) as (resp1 & w1 & U & _ & _ & _ & D); [eauto|].
    rewrite U in H. inv H. contradiction. }
  destruct (next_fault (disk_faults w)) eqn:F.
  { destruct (upload_file_other f w) as (resp1 & w1 & U & _ & _ & _ & D); [auto|].
    rewrite U in H. inv H. contradiction. }
  destruct (agent_instance w) eqn:A.
  2:{ destruct (upload_file_other f w) as (resp1 & w1 & U & _ & _ & _ & D); [auto|].
      rewrite U in H. inv H. contradiction. }
  rewrite (upload_file_run f w N F A) in H.
  destruct (add_file_context_to_agent _ (saved f w)) as [r w1] eqn:G.
  apply add_file_context_to_agent_calls in G.
  destruct G as (commits & inserts & K & Fc & _ & S & _).
  destruct r as [[|]|e]; inv H; try discriminate Q.
  exists (commits ++ inserts). split; [exact K|].
  apply index_calls_of_commits_and; eauto.
Qed.

Lemma update_success_calls f resp w w' :
  update_file f w = (Return resp, w') ->
  reports_success (UpdateDocument f) resp ->
  exists l, calls w' = calls w ++ l /\
    forall c, In c l -> is_index_call (fst c) = true -> succeeded c.
Proof.
  intros H Q.
  destruct (find (has_filename (filename f)) (table w)) as [row|] eqn:N.
  2:{ destruct (update_file_other f w) as (resp1 & w1 & U & _ & _ & _ & D); [auto|].
      rewrite U in H. inv H. contradiction. }
  destruct (String.eqb (DocumentMetadata.doc_id row) "") eqn:X.
  { apply String.eqb_eq in X.
    destruct (update_file_other f w) as (resp1 & w1 & U & _ & _ & _ & D); [eauto|].
    rewrite U in H. inv H. contradiction. }
  apply String.eqb_neq in X.
  destruct (next_fault (disk_faults w)) eqn:F.
  { destruct (update_file_other f w) as (resp1 & w1 & U & _ & _ & _ & D); [auto|].
    rewrite U in H. inv H. contradiction. }
  destruct (agent_instance w) eqn:A.
  2:{ destruct (update_file_other f w) as (resp1 & w1 & U & _ & _ & _ & D); [auto|].
      rewrite U in H. inv H. contradiction. }
  rewrite (update_file_run f w row N X F A) in H.
  destruct (update_file_context_in_agent _ _ (saved f w)) as [r w1] eqn:G.
  apply update_file_context_in_agent_inv in G.
  2:{ apply (find_some_existsb _ _ _ _ N). apply String.eqb_refl. }
  destruct G as (updates & commits & k & K & _ & Fc & S & _ & _).
  destruct r as [[|]|e]; inv H; try discriminate Q.
  exists (updates ++ commits). split; [exact K|].
  apply index_calls_of_and_commits; eauto.
Qed.

Lemma delete_success_calls name resp w w' :
  delete_file_endpoint name w = (Return resp, w') ->
  reports_success (DeleteDocument name) resp ->
  exists l, calls w' = calls w ++ l /\
    (forall c, In c l -> is_index_call (fst c) = true -> succeeded c) /\
    (agent_instance w = true -> exists x, In (IndexDeleteRefDoc x, true) l).
Proof.
  intros H Q.
  destruct (find (has_filename name) (table w)) as [row|] eqn:N.
  2:{ rewrite delete_file_endpoint_other in H by auto. inv H. discriminate Q. }
  destruct (String.eqb (DocumentMetadata.doc_id row) "") eqn:X.
  { apply String.eqb_eq in X. rewrite delete_file_endpoint_other in H by eauto.
    inv H. discriminate Q. }
  apply String.eqb_neq in X.
  destruct (agent_instance w) eqn:A.
  - rewrite (delete_file_endpoint_run name w row N X A) in H.
    destruct (index_delete_ref_doc _ w) as [r w1] eqn:I.
    unfold index_delete_ref_doc in I. apply index_call_inv in I.
    destruct I as (_ & [(-> & _ & K & _) | (-> & _ & _ & _)]);
      [|inv H; discriminate Q].
    destruct (delete_document_metadata_by_doc_id _ w1) as [rd w2] eqn:D.
    apply delete_document_metadata_by_doc_id_inv in D.
    destruct D as (_ & _ & commits & K2 & Fc). simpl in H.
    destruct (delete_from_disk_inv name w2) as (w3 & E & K3 & _).
    rewrite E in H. inv H.
    exists ([(IndexDeleteRefDoc (DocumentMetadata.doc_id row), true)] ++ commits).
    rewrite K3, K2, K, <- app_assoc. split; [reflexivity|]. split.
    + apply index_calls_of_and_commits; auto. constructor; [reflexivity | constructor].
    + intros _. exists (DocumentMetadata.doc_id row). simpl. auto.
  - rewrite (delete_file_endpoint_no_agent name w row N X A) in H.
    destruct (delete_from_disk_inv name w) as (w3 & E & K3 & _).
    rewrite E in H. inv H. exists []. rewrite app_nil_r. split; [exact K3|].
    split; [intros c []|discriminate].
Qed.

(** C3 (as amended).  An upload, an update or a delete reports success
    only if every call it made to the vector index succeeded, and a
    delete made while the agent runs has then made one successful index
    deletion.  ([l] is what the operation adds to the log of calls.) *)
Theorem success_only_if_index_calls_succeeded op w resp w' :
  perform op w = (Return resp, w') ->
  reports_success op resp ->
  exists l, calls w' = calls w ++ l /\
    (forall c, In c l -> is_index_call (fst c) = true -> succeeded c) /\
    (forall name, op = DeleteDocument name -> agent_instance w = true ->
       exists x, In (IndexDeleteRefDoc x, true) l).
Proof.
  destruct op as [f|f|name]; simpl; intros H Q.
  - destruct (upload_success_calls f resp w w' H Q) as (l & K & S).
    exists l. repeat split; auto. discriminate.
  - destruct (update_success_calls f resp w w' H Q) as (l & K & S).
    exists l. repeat split; auto. discriminate.
  - destruct (delete_success_calls name resp w w' H Q) as (l & K & S & D).
    exists l. repeat split; auto.
Qed.

Lemma success_only_if_index_calls_succeeded_witness :
  perform (DeleteDocument "essay.txt") essay_world
    = (Return (delete_done "essay.txt"), essay_deleted_world) /\
  reports_success (DeleteDocument "essay.txt") (delete_done "essay.txt") /\
  exists l,
    calls essay_deleted_world = calls essay_world ++ l /\
    (forall c, In c l -> is_index_call (fst c) = true -> succeeded c) /\
    (forall name, DeleteDocument "essay.txt" = DeleteDocument name ->
       agent_instance essay_world = true ->
       exists x, In (IndexDeleteRefDoc x, true) l).
Proof.
  assert (H : perform (DeleteDocument "essay.txt") essay_world
              = (Return (delete_done "essay.txt"), essay_deleted_world))
    by (vm_compute; reflexivity).
  assert (Q : reports_success (DeleteDocument "essay.txt") (delete_done "essay.txt"))
    by (vm_compute; reflexivity).
  split; [exact H|]. split; [exact Q|].
  exact (success_only_if_index_calls_succeeded (DeleteDocument "essay.txt")
           essay_world (delete_done "essay.txt") essay_deleted_world H Q).
Defined.

(** C3, the claim as stated fails: the index deletion succeeds, the
    commit that deletes the metadata row fails, and the endpoint still
    answers that the file was deleted; the row is still in the table. *)
Lemma delete_reports_success_when_metadata_delete_fails :
  delete_file_endpoint "essay.txt" (set_commit_faults essay_world [true])
  = (Return [("filename", "essay.txt");
             ("message", "File deleted successfully from disk and vector store.")],
     mkWorld [essay_row] 2 [] [] true
             [(IndexDeleteRefDoc "doc-1", true); (DbCommit, false)]
             [] [] [] [Return [essay_document]] [] 90%Z).
Proof. reflexivity. Qed.





(** When every call succeeds, the upload stores the essay: one commit,
    then one insert, and the row, the index entry and the file are there. *)
Example upload_of_the_essay :
  upload_file essay_upload empty_world
  = (Return [("filename", "essay.txt");
             ("message", "File saved and indexed successfully");
             ("file_path", "data/essay.txt")],
     mkWorld [essay_row] 2 [("doc-1", "hello")] [("data/essay.txt", "hello")] true
             [(DbCommit, true); (IndexInsert "doc-1", true)]
             [] [] [] [] [] 90%Z).
Proof. reflexivity. Qed.

(* ------------------------------------------------------------------ *)
(** ** Updates *)

Lemma find_filename_doc_id n rows rows' :
  map stable rows' = map stable rows ->
  option_map DocumentMetadata.doc_id (find (has_filename n) rows')
  = option_map DocumentMetadata.doc_id (find (has_filename n) rows).
Proof.
  intros H. apply (find_filename_stable n) in H.
  destruct (find (has_filename n) rows') as [r'|], (find (has_filename n) rows) as [r|];
    simpl in *; try discriminate; [|reflexivity].
  unfold stable in H. congruence.
Qed.

Lemma update_file_cases f w :
  (find (has_filename (filename f)) (table w) = None \/
   (exists row, find (has_filename (filename f)) (table w) = Some row /\
                DocumentMetadata.doc_id row = "") \/
   next_fault (disk_faults w) = true \/ agent_instance w = false)
  \/
  (exists row, find (has_filename (filename f)) (table w) = Some row /\
               DocumentMetadata.doc_id row <> "" /\
               next_fault (disk_faults w) = false /\ agent_instance w = true).
Proof.
  destruct (find (has_filename (filename f)) (table w)) as [row|]; [|auto].
  destruct (String.eqb_spec (DocumentMetadata.doc_id row) ""); [left; right; left; eauto|].
  destruct (next_fault (disk_faults w)); [auto|].
  destruct (agent_instance w); [|auto 6].
  right. eauto.
Qed.

(** One update, whatever its outcome. *)
Lemma update_file_step f w :
  map stable (table (snd (update_file f w))) = map stable (table w) /\
  exists l, calls (snd (update_file f w)) = calls w ++ l /\
    forall c, In c l -> is_index_call (fst c) = true ->
    exists x,
      option_map DocumentMetadata.doc_id
        (find (has_filename (filename f)) (table w)) = Some x /\
      fst c = IndexUpdateRefDoc x.
Proof.
  assert (Other :
    (exists resp w', update_file f w = (Return resp, w') /\
       calls w' = calls w /\ table w' = table w /\ index w' = index w /\
       ~ reports_success (UpdateDocument f) resp) ->
    map stable (table (snd (update_file f w))) = map stable (table w) /\
    exists l, calls (snd (update_file f w)) = calls w ++ l /\
      forall c, In c l -> is_index_call (fst c) = true ->
      exists x,
        option_map DocumentMetadata.doc_id
          (find (has_filename (filename f)) (table w)) = Some x /\
        fst c = IndexUpdateRefDoc x).
  { intros (resp & w' & U & K & T & _). rewrite U. simpl. rewrite T.
    split; [reflexivity|]. exists []. rewrite app_nil_r. split; [exact K|].
    intros c []. }
  destruct (update_file_cases f w) as [O | (row & N & X & F & A)].
  { apply Other. apply update_file_other. exact O. }
  rewrite (update_file_run f w row N X F A).
  destruct (update_file_context_in_agent _ _ (saved f w)) as [r w1] eqn:G.
  apply update_file_context_in_agent_inv in G.
  2:{ apply (find_some_existsb _ _ _ _ N). apply String.eqb_refl. }
  destruct G as (updates & commits & k & K & Fu & Fc & _ & _ & T).
  assert (snd (match r with
               | Return true =>
                   (Return (update_reindexed (filename f) (data_path (filename f))), w1)
               | Return false =>
                   (Return (update_reindexing_failed (filename f) (data_path (filename f))), w1)
               | Raise e => (Return (update_exception e), w1)
               end) = w1) as -> by (destruct r as [[|]|e]; reflexivity).
  split.
  - rewrite T. apply update_first_stable. apply refresh_all_stable.
  - exists (updates ++ commits). split; [exact K|].
    intros c I C. exists (DocumentMetadata.doc_id row).
    split; [rewrite N; reflexivity|].
    apply in_app_or in I. destruct I as [I | I].
    + rewrite Forall_forall in Fu. auto.
    + rewrite Forall_forall in Fc. specialize (Fc c I). unfold is_commit in Fc.
      rewrite Fc in C. discriminate.
Qed.

Lemma refresh_all_set_doc_id x docs : forall r,
  refresh_all (map (fun doc => set_doc_id doc x) docs) r = refresh_all docs r.
Proof.
  unfold refresh_all. induction docs as [|d docs IH]; intros r; simpl; [reflexivity|].
  rewrite IH. reflexivity.
Qed.

Lemma update_first_ext p f g rows :
  (forall r, f r = g r) -> update_first p f rows = update_first p g rows.
Proof.
  intros E. induction rows as [|r rows IH]; simpl; [reflexivity|].
  destruct (p r); [rewrite E | rewrite IH]; reflexivity.
Qed.

(** Under the unique constraint on [doc_id], the row that a file name
    leads to is the row that an update by its identifier rewrites. *)
Lemma find_filename_update_first n g rows : forall row,
  NoDup (map DocumentMetadata.doc_id rows) ->
  find (has_filename n) rows = Some row ->
  (forall r, stable (g r) = stable r) ->
  find (has_filename n)
       (update_first (has_doc_id (DocumentMetadata.doc_id row)) g rows)
  = Some (g row).
Proof.
  induction rows as [|r rows IH]; intros row U F G; simpl in *; [discriminate|].
  inversion U as [|? ? Nin U']; subst.
  destruct (has_filename n r) eqn:Fn.
  - inv F. unfold has_doc_id at 1. rewrite String.eqb_refl. simpl.
    rewrite (stable_has_filename n row (g row) (G row)), Fn. reflexivity.
  - destruct (has_doc_id (DocumentMetadata.doc_id row) r) eqn:Fx.
    + exfalso. apply Nin. unfold has_doc_id in Fx. apply String.eqb_eq in Fx.
      rewrite Fx. apply in_map. apply find_some in F. apply F.
    + simpl. rewrite Fn. apply IH; auto.
Qed.

(** A loop of index calls that returns has made one call per
    document, each with success. *)
Lemma for_each_index_calls_return (call : Document -> Call)
    (effect : Document -> Index -> Index) docs : forall w w',
  for_each docs (fun doc => index_call (call doc) (effect doc)) w = (Return tt, w') ->
  calls w' = calls w ++ map (fun doc => (call doc, true)) docs /\
  index w' = fold_left (fun i doc => effect doc i) docs (index w).
Proof.
  induction docs as [|doc docs IH]; intros w w' H.
  - inv H. simpl. rewrite app_nil_r. auto.
  - simpl in H. unfold bind in H.
    destruct (index_call (call doc) (effect doc) w) as [rc w1] eqn:C.
    apply index_call_inv in C.
    destruct C as (_ & [(-> & _ & K & I) | (-> & _)]); [|discriminate H].
    apply IH in H. destruct H as (K' & I'). simpl.
    rewrite K', K, I', I, <- app_assoc. auto.
Qed.

(** The session of an update, with its commits: the row is refreshed
    from every document unless a commit fails, and then from the
    documents before that commit. *)
Lemma session_loop_refresh_log x docs : forall w r w',
  existsb (has_doc_id x) (table w) = true ->
  Forall (fun doc => doc_id doc = x) docs ->
  session_loop docs [] w = (r, w') ->
  exists k l,
    calls w' = calls w ++ l /\ Forall is_commit l /\
    (k = length docs /\ r = Return [] \/
     (k < length docs)%nat /\ (exists e, r = Raise e) /\ Exists failed l) /\
    table w' = update_first (has_doc_id x) (refresh_all (firstn k docs)) (table w).
Proof.
  induction docs as [|doc docs IH]; intros w r w' E D H.
  - inv H. exists 0%nat, []. simpl. rewrite update_first_id, app_nil_r.
    split; [reflexivity|]. split; [constructor|]. split; [left; auto | reflexivity].
  - rewrite session_loop_cons in H. inversion D as [|? ? Dx D']; subst.
    rewrite E in H. pose proof E as E'. rewrite <- find_is_not_None in E'.
    destruct (find (has_doc_id (doc_id doc)) (table w)); [clear E'|discriminate].
    destruct (commit [] _ w) as [rc w1] eqn:C.
    apply commit_inv in C.
    destruct C as (_ & [(-> & K & _ & T) | ((e & ->) & K & T & _)]).
    + rewrite app_nil_r in T.
      destruct (IH w1 r w') as (k & l & K' & Fl & Hk & T'); auto.
      { rewrite T. rewrite update_first_existsb by apply refresh_stable. exact E. }
      exists (S k), ((DbCommit, true) :: l). rewrite K', K, <- app_assoc.
      split; [reflexivity|]. split; [constructor; [reflexivity | exact Fl]|]. split.
      { destruct Hk as [(-> & ->) | (Hk & R & X)]; [left; auto|].
        right. split; [simpl; apply -> Nat.succ_lt_mono; exact Hk|].
        split; [exact R | apply Exists_cons_tl; exact X]. }
      rewrite T', T. rewrite update_first_twice by apply refresh_stable. reflexivity.
    + inv H. exists 0%nat, [(DbCommit, false)].
      split; [exact K|]. split; [constructor; [reflexivity | constructor]|]. split.
      { right. split; [simpl; apply Nat.lt_0_succ|].
        split; [eauto | apply Exists_cons_hd; reflexivity]. }
      simpl. rewrite update_first_id. exact T.
Qed.

Lemma create_document_session_refresh_log x docs w r w' :
  existsb (has_doc_id x) (table w) = true ->
  Forall (fun doc => doc_id doc = x) docs ->
  create_document_session docs w = (r, w') ->
  exists k l,
    calls w' = calls w ++ l /\ Forall is_commit l /\
    (k <= length docs)%nat /\
    (Forall succeeded l -> k = length docs) /\
    table w' = update_first (has_doc_id x) (refresh_all (firstn k docs)) (table w).
Proof.
  intros E D H. unfold create_document_session, try_except, bind in H.
  destruct (session_loop docs [] w) as [rl w1] eqn:L.
  destruct (session_loop_refresh_log x docs w rl w1 E D L)
    as (k & l & K & Fl & Hk & T).
  destruct Hk as [(-> & ->) | (Hk & (e & ->) & X)].
  - destruct (commit [] no_change w1) as [rc w2] eqn:C.
    pose proof (commit_nothing_table _ _ _ C) as T2.
    apply commit_inv in C. destruct C as (_ & C).
    assert (exists ok, calls w2 = calls w1 ++ [(DbCommit, ok)]) as (ok & K').
    { destruct C as [(_ & K' & _) | (_ & K' & _)]; eauto. }
    assert (w' = w2) as -> by (destruct rc; unfold ret in H; inv H; reflexivity).
    exists (length docs), (l ++ [(DbCommit, ok)]).
    rewrite K', K, <- app_assoc. split; [reflexivity|]. split.
    { apply Forall_app. split; [exact Fl|]. constructor; [reflexivity | constructor]. }
    split; [apply Nat.le_refl|]. split; [reflexivity|]. congruence.
  - unfold ret in H. inv H. exists k, l. split; [exact K|]. split; [exact Fl|].
    split; [apply Nat.lt_le_incl; exact Hk|]. split; [|exact T].
    intros S. exfalso. apply Exists_exists in X. destruct X as (c & I & Fc).
    rewrite Forall_forall in S. specialize (S c I).
    unfold succeeded in S. unfold failed in Fc. congruence.
Qed.

(** An update that reports success: what it did to the index, the
    metadata table and the call log. *)
Lemma update_file_success f w resp w' :
  update_file f w = (Return resp, w') ->
  reports_success (UpdateDocument f) resp ->
  exists row commits k,
    find (has_filename (filename f)) (table w) = Some row /\
    calls w' = calls w
               ++ map (fun doc => (IndexUpdateRefDoc (DocumentMetadata.doc_id row), true))
                      (next_documents w)
               ++ commits /\
    Forall is_commit commits /\
    index w' = resubmitted (DocumentMetadata.doc_id row) (next_documents w) (index w) /\
    (k <= length (next_documents w))%nat /\
    (Forall succeeded commits -> k = length (next_documents w)) /\
    table w' = update_first (has_doc_id (DocumentMetadata.doc_id row))
                            (refresh_all (firstn k (next_documents w))) (table w).
Proof.
  intros H Q.
  destruct (update_file_cases f w) as [O | (row & N & X & F & A)].
  { destruct (update_file_other f w O) as (resp1 & w1 & E & _ & _ & _ & D).
    rewrite E in H. inv H. contradiction. }
  rewrite (update_file_run f w row N X F A) in H.
  rewrite update_file_context_in_agent_run in H.
  assert (P : existsb (path_is (data_path (filename f))) (disk (saved f w)) = true)
    by apply path_exists_after_write.
  rewrite P in H.
  destruct (load_data (data_path (filename f)) (saved f w)) as [[docs|e] w1] eqn:L;
    apply load_data_inv in L; destruct L as (K1 & T1 & I1 & _ & _ & _ & L);
    [|inv H; discriminate Q].
  assert (ND : next_documents w = docs).
  { change (next_documents w) with (next_documents (saved f w)).
    unfold next_documents. destruct L as [(-> & L) | (rest & ->)]; [inv L|]; reflexivity. }
  destruct (for_each docs _ w1) as [[[]|e] w2] eqn:U; [|inv H; discriminate Q].
  pose proof (for_each_index_calls
                (fun doc => IndexUpdateRefDoc (DocumentMetadata.doc_id row))
                (fun doc i => filter (fun e => negb (ref_doc_is (DocumentMetadata.doc_id row) e)) i
                              ++ [(DocumentMetadata.doc_id row, text doc)])
                docs w1 (Return tt) w2 U) as ((T2 & _) & _).
  pose proof (for_each_index_calls_return
                (fun doc => IndexUpdateRefDoc (DocumentMetadata.doc_id row))
                (fun doc i => filter (fun e => negb (ref_doc_is (DocumentMetadata.doc_id row) e)) i
                              ++ [(DocumentMetadata.doc_id row, text doc)])
                docs w1 w2 U) as (K2 & I2).
  destruct (create_document_session _ w2) as [rs w3] eqn:S. cbn [snd] in H. inv H.
  destruct (create_document_session_refresh_log (DocumentMetadata.doc_id row) _ w2 _ _
              ltac:(rewrite T2, T1; apply (find_some_existsb _ _ _ _ N);
                    apply String.eqb_refl)
              (map_doc_id_set _ _) S) as (k & commits & K3 & Fc & Hk & Hs & T3).
  rewrite length_map in Hk, Hs.
  exists row, commits, k.
  split; [exact N|]. split.
  { rewrite K3, K2, K1, <- app_assoc. reflexivity. }
  split; [exact Fc|]. split.
  { pose proof (create_document_session_calls _ _ _ _ S) as (_ & O & _).
    destruct O as (I3 & _). rewrite I3, I2, I1. reflexivity. }
  split; [exact Hk|]. split; [exact Hs|].
  rewrite T3, T2, T1. rewrite firstn_map.
  apply update_first_ext. apply refresh_all_set_doc_id.
Qed.

(** C5.  However many updates are made, and whatever their outcome, every
    row keeps its identifier (with its key, file name, type, path and
    creation date), so each file name leads to the same document
    identifier as before; every call the updates make to the vector
    index is an [update_ref_doc] tagged with the identifier stored for
    the file name of one of the updates.  And after any series of
    updates, an update that reports success has called [update_ref_doc]
    once for every document it read, each call tagged with the
    identifier that the file name had before the first update, so that
    the index holds the new content under that identifier and nothing
    else under it; the row that carries the identifier is then
    rewritten from the documents read (from all of them when the
    commits go through) and still carries the identifier. *)
Theorem document_id_invariant_across_updates fs w :
  map stable (table (after_updates fs w)) = map stable (table w) /\
  map DocumentMetadata.doc_id (table (after_updates fs w))
    = map DocumentMetadata.doc_id (table w) /\
  (forall name,
     option_map DocumentMetadata.doc_id
       (find (has_filename name) (table (after_updates fs w)))
     = option_map DocumentMetadata.doc_id (find (has_filename name) (table w))) /\
  (exists l, calls (after_updates fs w) = calls w ++ l /\
     forall c, In c l -> is_index_call (fst c) = true ->
     exists f x, In f fs /\
       option_map DocumentMetadata.doc_id
         (find (has_filename (filename f)) (table w)) = Some x /\
       fst c = IndexUpdateRefDoc x) /\
  (forall fs1 f resp w1,
     update_file f (after_updates fs1 w) = (Return resp, w1) ->
     reports_success (UpdateDocument f) resp ->
     exists x commits k,
       option_map DocumentMetadata.doc_id
         (find (has_filename (filename f)) (table w)) = Some x /\
       calls w1 = calls (after_updates fs1 w)
                  ++ map (fun doc => (IndexUpdateRefDoc x, true))
                         (next_documents (after_updates fs1 w))
                  ++ commits /\
       Forall is_commit commits /\
       index w1 = resubmitted x (next_documents (after_updates fs1 w))
                              (index (after_updates fs1 w)) /\
       (k <= length (next_documents (after_updates fs1 w)))%nat /\
       (Forall succeeded commits ->
        k = length (next_documents (after_updates fs1 w))) /\
       table w1 = update_first (has_doc_id x)
                    (refresh_all (firstn k (next_documents (after_updates fs1 w))))
                    (table (after_updates fs1 w)) /\
       option_map DocumentMetadata.doc_id
         (find (has_filename (filename f)) (table w1)) = Some x).
Proof.
  assert (Main : forall fs w,
    map stable (table (after_updates fs w)) = map stable (table w) /\
    exists l, calls (after_updates fs w) = calls w ++ l /\
      forall c, In c l -> is_index_call (fst c) = true ->
      exists f x, In f fs /\
        option_map DocumentMetadata.doc_id
          (find (has_filename (filename f)) (table w)) = Some x /\
        fst c = IndexUpdateRefDoc x).
  { clear fs w. induction fs as [|f fs IH]; intros w.
    - simpl. split; [reflexivity|]. exists []. rewrite app_nil_r.
      split; [reflexivity|]. intros c [].
    - unfold after_updates. simpl. fold (after_updates fs (snd (update_file f w))).
      destruct (update_file_step f w) as (T1 & l1 & K1 & C1).
      destruct (IH (snd (update_file f w))) as (T2 & l2 & K2 & C2).
      split; [congruence|]. exists (l1 ++ l2).
      rewrite K2, K1, <- app_assoc. split; [reflexivity|].
      intros c I C. apply in_app_or in I. destruct I as [I | I].
      + destruct (C1 c I C) as (x & Hx & Hc). exists f, x. simpl. auto.
      + destruct (C2 c I C) as (f' & x & If & Hx & Hc). exists f', x.
        rewrite (find_filename_doc_id _ _ _ T1) in Hx. simpl. auto. }
  destruct (Main fs w) as (T & L). split; [exact T|]. split.
  - assert (P : forall rows rows', map stable rows' = map stable rows ->
              map DocumentMetadata.doc_id rows' = map DocumentMetadata.doc_id rows).
    { induction rows as [|r rows IH]; intros [|r' rows'] H; simpl in *;
        try discriminate; [reflexivity|].
      assert (Hr : stable r' = stable r) by congruence.
      assert (Hs : map stable rows' = map stable rows) by congruence.
      rewrite (IH _ Hs). unfold stable in Hr. congruence. }
    apply P. exact T.
  - split; [intros name; apply find_filename_doc_id; exact T|].
    split; [exact L|].
    intros fs1 f resp w1 U Q.
    destruct (Main fs1 w) as (T1 & _).
    destruct (update_file_success f _ resp w1 U Q)
      as (row & commits & k & N & K & Fc & I & Hk & Hs & Tk).
    pose proof (find_filename_doc_id (filename f) _ _ T1) as X.
    rewrite N in X. simpl in X.
    exists (DocumentMetadata.doc_id row), commits, k.
    split; [symmetry; exact X|]. split; [exact K|]. split; [exact Fc|].
    split; [exact I|]. split; [exact Hk|]. split; [exact Hs|].
    split; [exact Tk|].
    assert (T2 : map stable (table w1) = map stable (table (after_updates fs1 w))).
    { rewrite Tk. apply update_first_stable. apply refresh_all_stable. }
    rewrite (find_filename_doc_id (filename f) _ _ T2), N. reflexivity.
Qed.

Lemma document_id_invariant_across_updates_witness :
  update_file essay_revision_upload (after_updates [] revision_world)
    = (Return (update_reindexed "essay.txt" "data/essay.txt"), essay_revised_world) /\
  reports_success (UpdateDocument essay_revision_upload)
                  (update_reindexed "essay.txt" "data/essay.txt") /\
  exists x commits k,
    option_map DocumentMetadata.doc_id
      (find (has_filename (filename essay_revision_upload)) (table revision_world))
      = Some x /\
    calls essay_revised_world
      = calls (after_updates [] revision_world)
        ++ map (fun doc => (IndexUpdateRefDoc x, true))
               (next_documents (after_updates [] revision_world))
        ++ commits /\
    Forall is_commit commits /\
    index essay_revised_world
      = resubmitted x (next_documents (after_updates [] revision_world))
                    (index (after_updates [] revision_world)) /\
    (k <= length (next_documents (after_updates [] revision_world)))%nat /\
    (Forall succeeded commits ->
     k = length (next_documents (after_updates [] revision_world))) /\
    table essay_revised_world
      = update_first (has_doc_id x)
          (refresh_all (firstn k (next_documents (after_updates [] revision_world))))
          (table (after_updates [] revision_world)) /\
    option_map DocumentMetadata.doc_id
      (find (has_filename (filename essay_revision_upload))
            (table essay_revised_world)) = Some x.
Proof.
  assert (U : update_file essay_revision_upload (after_updates [] revision_world)
              = (Return (update_reindexed "essay.txt" "data/essay.txt"),
                 essay_revised_world))
    by (vm_compute; reflexivity).
  assert (Q : reports_success (UpdateDocument essay_revision_upload)
                              (update_reindexed "essay.txt" "data/essay.txt"))
    by (vm_compute; reflexivity).
  split; [exact U|]. split; [exact Q|].
  exact (proj2 (proj2 (proj2 (proj2
           (document_id_invariant_across_updates
              [essay_revision_upload] revision_world))))
           [] essay_revision_upload _ _ U Q).
Defined.

Lemma last_modified_at_none docs : forall old,
  (forall doc, In doc docs -> Metadata.modified_at (metadata doc) = None) ->
  last_modified_at docs old = old.
Proof.
  unfold last_modified_at.
  induction docs as [|doc docs IH]; intros old H; simpl; [reflexivity|].
  rewrite (H doc) by (left; reflexivity). apply IH.
  intros d I. apply H. right. exact I.
Qed.

Lemma last_modified_at_cases docs : forall old,
  last_modified_at docs old = old \/
  exists doc t, In doc docs /\ Metadata.modified_at (metadata doc) = Some t /\
    last_modified_at docs old = Some t.
Proof.
  unfold last_modified_at.
  induction docs as [|d docs IH]; intros old; simpl; [left; reflexivity|].
  destruct (IH (match Metadata.modified_at (metadata d) with
                | Some t' => Some t'
                | None => old
                end)) as [E | (doc & t & I & M & E)].
  - rewrite E. destruct (Metadata.modified_at (metadata d)) as [t'|] eqn:M.
    + right. exists d, t'. auto.
    + left. reflexivity.
  - right. exists doc, t. auto.
Qed.

Lemma in_firstn {A} (a : A) k : forall l, In a (firstn k l) -> In a l.
Proof.
  induction k as [|k IH]; intros [|b l] I; simpl in *; try contradiction.
  destruct I as [I | I]; [left; exact I | right; apply IH; exact I].
Qed.

(** C7 (as amended).  Under the unique constraint on [doc_id]: after an
    update that reports success, the row of the file keeps its creation
    date and its identifier.  No clock is read and nothing compares the
    new [modified_at] with the former one: the new value is the former
    one, or a time copied from the metadata of a document read.  More
    precisely, [modified_at] is the last [modified_at] entry of the
    metadata of the documents that count, and its former value when
    they have none; the size is their last file size, likewise.  Every
    document read counts when every commit of the update goes through;
    when a commit fails, success is reported all the same and only the
    documents handled before that commit count, possibly none. *)
Theorem update_refreshes_row_from_document_metadata f w resp w' row :
  NoDup (map DocumentMetadata.doc_id (table w)) ->
  find (has_filename (filename f)) (table w) = Some row ->
  update_file f w = (Return resp, w') ->
  reports_success (UpdateDocument f) resp ->
  exists k row' l,
    calls w' = calls w ++ l /\
    (k <= length (next_documents w))%nat /\
    ((forall c, In c l -> fst c = DbCommit -> snd c = true) ->
     k = length (next_documents w)) /\
    find (has_filename (filename f)) (table w') = Some row' /\
    DocumentMetadata.creation_date row' = DocumentMetadata.creation_date row /\
    DocumentMetadata.doc_id row' = DocumentMetadata.doc_id row /\
    DocumentMetadata.modified_at row'
      = last_modified_at (firstn k (next_documents w))
                         (DocumentMetadata.modified_at row) /\
    DocumentMetadata.size row'
      = last_file_size (firstn k (next_documents w)) (DocumentMetadata.size row) /\
    ((forall doc, In doc (next_documents w) ->
        Metadata.modified_at (metadata doc) = None) ->
     DocumentMetadata.modified_at row' = DocumentMetadata.modified_at row) /\
    (DocumentMetadata.modified_at row' = DocumentMetadata.modified_at row \/
     exists doc t, In doc (next_documents w) /\
       Metadata.modified_at (metadata doc) = Some t /\
       DocumentMetadata.modified_at row' = Some t).
Proof.
  intros U N H Q.
  destruct (update_file_success f w resp w' H Q)
    as (row0 & commits & k & N0 & K & Fc & _ & Hk & Hs & T).
  rewrite N in N0. inv N0.
  exists k, (refresh_all (firstn k (next_documents w)) row0),
    (map (fun doc => (IndexUpdateRefDoc (DocumentMetadata.doc_id row0), true))
         (next_documents w) ++ commits).
  split; [exact K|]. split; [exact Hk|]. split.
  { intros A. apply Hs. apply Forall_forall. intros c I. apply A.
    - apply in_or_app. right. exact I.
    - rewrite Forall_forall in Fc. apply Fc. exact I. }
  split.
  { rewrite T. apply find_filename_update_first; auto. apply refresh_all_stable. }
  pose proof (refresh_all_stable (firstn k (next_documents w)) row0) as St.
  unfold stable in St.
  split; [congruence|]. split; [congruence|].
  split; [apply refresh_all_modified_at|].
  split; [apply refresh_all_size|]. rewrite refresh_all_modified_at. split.
  - intros A. apply last_modified_at_none.
    intros doc I. apply A. apply (in_firstn doc k). exact I.
  - destruct (last_modified_at_cases (firstn k (next_documents w))
                (DocumentMetadata.modified_at row0)) as [E | (doc & t & I & M & E)].
    + left. exact E.
    + right. exists doc, t. split; [apply (in_firstn doc k); exact I|]. auto.
Qed.

Lemma update_refreshes_row_from_document_metadata_witness :
  NoDup (map DocumentMetadata.doc_id (table revision_world)) /\
  find (has_filename (filename essay_revision_upload)) (table revision_world)
    = Some essay_row /\
  update_file essay_revision_upload revision_world
    = (Return (update_reindexed "essay.txt" "data/essay.txt"), essay_revised_world) /\
  reports_success (UpdateDocument essay_revision_upload)
                  (update_reindexed "essay.txt" "data/essay.txt") /\
  exists k row' l,
    calls essay_revised_world = calls revision_world ++ l /\
    (k <= length (next_documents revision_world))%nat /\
    ((forall c, In c l -> fst c = DbCommit -> snd c = true) ->
     k = length (next_documents revision_world)) /\
    find (has_filename (filename essay_revision_upload)) (table essay_revised_world)
      = Some row' /\
    DocumentMetadata.creation_date row' = DocumentMetadata.creation_date essay_row /\
    DocumentMetadata.doc_id row' = DocumentMetadata.doc_id essay_row /\
    DocumentMetadata.modified_at row'
      = last_modified_at (firstn k (next_documents revision_world))
                         (DocumentMetadata.modified_at essay_row) /\
    DocumentMetadata.size row'
      = last_file_size (firstn k (next_documents revision_world))
                       (DocumentMetadata.size essay_row) /\
    ((forall doc, In doc (next_documents revision_world) ->
        Metadata.modified_at (metadata doc) = None) ->
     DocumentMetadata.modified_at row' = DocumentMetadata.modified_at essay_row) /\
    (DocumentMetadata.modified_at row' = DocumentMetadata.modified_at essay_row \/
     exists doc t, In doc (next_documents revision_world) /\
       Metadata.modified_at (metadata doc) = Some t /\
       DocumentMetadata.modified_at row' = Some t).
Proof.
  assert (U : NoDup (map DocumentMetadata.doc_id (table revision_world))).
  { simpl. constructor; [intros [] | constructor]. }
  assert (N : find (has_filename (filename essay_revision_upload))
                   (table revision_world) = Some essay_row)
    by (vm_compute; reflexivity).
  assert (H : update_file essay_revision_upload revision_world
              = (Return (update_reindexed "essay.txt" "data/essay.txt"),
                 essay_revised_world))
    by (vm_compute; reflexivity).
  assert (Q : reports_success (UpdateDocument essay_revision_upload)
                              (update_reindexed "essay.txt" "data/essay.txt"))
    by (vm_compute; reflexivity).
  split; [exact U|]. split; [exact N|]. split; [exact H|]. split; [exact Q|].
  exact (update_refreshes_row_from_document_metadata essay_revision_upload
           revision_world (update_reindexed "essay.txt" "data/essay.txt")
           essay_revised_world essay_row U N H Q).
Defined.

(** C7, the claim as stated fails: the essay is updated, the endpoint
    reports success, the metadata of the document read has no
    [modified_at] entry, and the row keeps the [modified_at] it had: the
    new value is not later than the old one. *)
Lemma update_can_leave_modified_at_unchanged :
  DocumentMetadata.modified_at essay_row = Some 90%Z /\
  update_file essay_upload essay_world
  = (Return [("filename", "essay.txt");
             ("message", "File updated and re-indexed successfully");
             ("file_path", "data/essay.txt")],
     mkWorld
       [DocumentMetadata.mk 1 "essay.txt" "doc-1" "text/plain" "data/essay.txt" 5
                            (Some 100%Z) (Some 90%Z) (Some 90%Z)]
       2 [("doc-1", "hello")] [("data/essay.txt", "hello")] true
       [(IndexUpdateRefDoc "doc-1", true); (DbCommit, true); (DbCommit, true)]
       [] [] [] [] [] 90%Z).
Proof. split; reflexivity. Qed.

(** An update during which the commit fails: success is reported, and
    the row keeps the size 5 and the modification time 90 that it had,
    though the document read carries 6 and 250. *)
Example update_reports_success_when_the_commit_fails :
  update_file essay_revision_upload (set_commit_faults revision_world [true])
  = (Return (update_reindexed "essay.txt" "data/essay.txt"),
     mkWorld [essay_row] 2 [("doc-1", "hello!")] [("data/essay.txt", "hello!")]
       true [(IndexUpdateRefDoc "doc-1", true); (DbCommit, false)]
       [] [] [] [] [] 90%Z).
Proof. vm_compute. reflexivity. Qed.


(* ================================================================== *)
(** * Properties of the context evaluator *)

(** Multiplication of binary64 numbers is commutative. *)
Lemma SFmul_comm prec emax x y : SFmul prec emax x y = SFmul prec emax y x.
Proof.
  destruct x as [sx|sx| |sx mx ex], y as [sy|sy| |sy my ey]; simpl;
    try reflexivity; try (rewrite xorb_comm; reflexivity).
  rewrite xorb_comm, Pos.mul_comm, Z.add_comm. reflexivity.
Qed.

Lemma float_mul_comm (x y : float) : (x * y = y * x)%float.
Proof. apply Prim2SF_inj. rewrite !mul_spec. apply SFmul_comm. Qed.

Section EvaluatorProperties.

Variable json_loads : string -> Loads.
Variable float_of_int : Z -> result float.
Variable float_of_str : string -> result float.

Lemma evaluate_relevance_returns query context w :
  exists r w',
    evaluate_relevance json_loads float_of_int float_of_str query context w
    = (Return r, w').
Proof.
  unfold evaluate_relevance, try_except.
  match goal with |- context [match ?m w with _ => _ end] =>
    destruct (m w) as [[r|e] w'] end; unfold ret; eauto.
Qed.

Lemma evaluate_completeness_returns query context w :
  exists r w',
    evaluate_completeness json_loads float_of_int float_of_str query context w
    = (Return r, w').
Proof.
  unfold evaluate_completeness, try_except.
  match goal with |- context [match ?m w with _ => _ end] =>
    destruct (m w) as [[r|e] w'] end; unfold ret; eauto.
Qed.

(** C8.  The overall score of [evaluate_quality] is 0.6 times the
    relevance score plus 0.4 times the completeness score that the two
    evaluations returned (in binary64 arithmetic), and the
    recommendation follows from the overall score alone: at least 0.8
    is high, else at least 0.6 is moderate, else at least 0.4 is low,
    else poor. *)
Theorem overall_score_and_recommendation query context w :
  exists rel w1 comp w',
    evaluate_relevance json_loads float_of_int float_of_str query context w
      = (Return rel, w1) /\
    evaluate_completeness json_loads float_of_int float_of_str query context w1
      = (Return comp, w') /\
    let overall :=
      (0.6 * Relevance.relevance_score rel
       + 0.4 * Completeness.completeness_score comp)%float in
    exists recommendation,
      evaluate_quality json_loads float_of_int float_of_str query context w
        = (Return (Quality.mk overall rel comp recommendation), w') /\
      ((0.8 <=? overall)%float = true ->
         recommendation = "High quality context - suitable for use") /\
      ((0.8 <=? overall)%float = false -> (0.6 <=? overall)%float = true ->
         recommendation = "Moderate quality - may need additional context") /\
      ((0.8 <=? overall)%float = false -> (0.6 <=? overall)%float = false ->
       (0.4 <=? overall)%float = true ->
         recommendation
         = "Low quality - consider refining query or adding more sources") /\
      ((0.8 <=? overall)%float = false -> (0.6 <=? overall)%float = false ->
       (0.4 <=? overall)%float = false ->
         recommendation
         = "Poor quality - context may not be relevant or complete").
Proof.
  destruct (evaluate_relevance_returns query context w) as (rel & w1 & R).
  destruct (evaluate_completeness_returns query context w1) as (comp & w' & C).
  exists rel, w1, comp, w'. split; [exact R|]. split; [exact C|].
  intros overall.
  exists (_get_recommendation overall). split.
  - unfold evaluate_quality, bind. rewrite R, C. unfold ret, overall.
    rewrite (float_mul_comm 0.6), (float_mul_comm 0.4). reflexivity.
  - unfold _get_recommendation.
    repeat split; intros; repeat match goal with
      | H : _ = _ |- _ => rewrite H
      end; reflexivity.
Qed.

End EvaluatorProperties.

(** The two JSON replies give the scores 0.9 and 0.7: the overall score is
    about 0.82 and the recommendation is the high one. *)
Example overall_score_of_two_replies :
  evaluate_quality sample_json_loads sample_float_of_int sample_float_of_str
                   "What is the essay about?" "It is about greetings."
                   grading_world
  = (Return
       (Quality.mk (0.6 * 0.9 + 0.4 * 0.7)%float
          (Relevance.mk 0.9 (JStr "") (JList []))
          (Completeness.mk 0.7 (JStr "") (JList []))
          "High quality context - suitable for use"),
     empty_world).
Proof. vm_compute. reflexivity. Qed.

(** A score just under a threshold falls in the band below. *)
Example recommendation_bands :
  _get_recommendation 0.8 = "High quality context - suitable for use" /\
  _get_recommendation 0.79 = "Moderate quality - may need additional context" /\
  _get_recommendation 0.6 = "Moderate quality - may need additional context" /\
  _get_recommendation 0.59
    = "Low quality - consider refining query or adding more sources" /\
  _get_recommendation 0.4
    = "Low quality - consider refining query or adding more sources" /\
  _get_recommendation 0.39
    = "Poor quality - context may not be relevant or complete" /\
  _get_recommendation nan
    = "Poor quality - context may not be relevant or complete".
Proof. vm_compute. repeat split. Qed.


Lemma overall_score_and_recommendation_witness :
  exists rel w1 comp w',
    evaluate_relevance sample_json_loads sample_float_of_int sample_float_of_str
      "What is the essay about?" "It is about greetings." grading_world
      = (Return rel, w1) /\
    evaluate_completeness sample_json_loads sample_float_of_int sample_float_of_str
      "What is the essay about?" "It is about greetings." w1
      = (Return comp, w') /\
    let overall :=
      (0.6 * Relevance.relevance_score rel
       + 0.4 * Completeness.completeness_score comp)%float in
    exists recommendation,
      evaluate_quality sample_json_loads sample_float_of_int sample_float_of_str
        "What is the essay about?" "It is about greetings." grading_world
        = (Return (Quality.mk overall rel comp recommendation), w') /\
      ((0.8 <=? overall)%float = true ->
         recommendation = "High quality context - suitable for use") /\
      ((0.8 <=? overall)%float = false -> (0.6 <=? overall)%float = true ->
         recommendation = "Moderate quality - may need additional context") /\
      ((0.8 <=? overall)%float = false -> (0.6 <=? overall)%float = false ->
       (0.4 <=? overall)%float = true ->
         recommendation
         = "Low quality - consider refining query or adding more sources") /\
      ((0.8 <=? overall)%float = false -> (0.6 <=? overall)%float = false ->
       (0.4 <=? overall)%float = false ->
         recommendation
         = "Poor quality - context may not be relevant or complete").
Proof.
  exact (overall_score_and_recommendation sample_json_loads sample_float_of_int
           sample_float_of_str "What is the essay about?" "It is about greetings."
           grading_world).
Defined.

Section ParseFailure.

Variable json_loads : string -> Loads.
Variable float_of_int : Z -> result float.
Variable float_of_str : string -> result float.


End ParseFailure.




(** A reply that decodes to a list is reported as an evaluation error. *)
Example list_reply_is_an_evaluation_error :
  evaluate_relevance sample_json_loads sample_float_of_int sample_float_of_str
    "What is the essay about?" "It is about greetings."
    (set_completions empty_world [Return "[1]"])
  = (Return (Relevance.mk 0
               (JStr "Evaluation error: 'list' object has no attribute 'get'")
               (JList [])),
     empty_world).
Proof. vm_compute. reflexivity. Qed.

(** The two patterns of [_extract_json] on some replies. *)
Example search_fenced_examples :
  search_fenced "Here: ```json {a} ``` and {b} ```" = Some "{a}" /\
  search_fenced "````{a}{b}```x" = Some "{a}{b}" /\
  search_fenced "```js {a}```" = None /\
  search_fenced "```json```{a}```" = Some "{a}" /\
  search_fenced "```{a}}```" = Some "{a}}" /\
  search_fenced "```{a}" = None.
Proof. vm_compute. repeat split. Qed.

Example search_object_examples :
  search_object "xx {a} yy {b} zz" = Some "{a} yy {b}" /\
  search_object "} {" = None /\
  search_object "}{}{" = Some "{}" /\
  json_text "see {a} and ```{b}```" = "{b}" /\
  json_text reply_prose = reply_prose.
Proof. vm_compute. repeat split. Qed.

(* ================================================================== *)
(** * Properties of the calculator tool *)

Import CalculatorMCPTool.

Lemma not_all_in (allowed l : list ascii) :
  forallb (fun c => existsb (Ascii.eqb c) allowed) l = false <->
  exists c, In c l /\ ~ In c allowed.
Proof.
  split.
  - intros H. induction l as [|c l IH]; [discriminate|].
    cbn [forallb] in H. apply andb_false_iff in H. destruct H as [H | H].
    + exists c. split; [left; reflexivity|]. intros I.
      assert (existsb (Ascii.eqb c) allowed = true).
      { apply existsb_exists. exists c. split; [exact I | apply Ascii.eqb_refl]. }
      congruence.
    + destruct (IH H) as (c' & I & N). exists c'. split; [right; exact I | exact N].
  - intros (c & I & N).
    destruct (forallb _ l) eqn:F; [|reflexivity].
    rewrite forallb_forall in F. specialize (F c I).
    apply existsb_exists in F. destruct F as (c' & I' & E).
    apply Ascii.eqb_eq in E. subst. contradiction.
Qed.

Lemma all_allowed_false expression :
  all_allowed expression = false <->
  exists c, In c (list_ascii_of_string expression) /\ ~ In c allowed_chars.
Proof. apply not_all_in. Qed.

Lemma execute_invalid py_eval expression :
  all_allowed expression = false ->
  execute py_eval expression = Return "Error: Invalid characters in expression".
Proof. intros A. unfold execute, execute_body. rewrite A. reflexivity. Qed.

Lemma execute_valid py_eval expression :
  all_allowed expression = true ->
  execute py_eval expression =
  Return match py_eval expression with
         | Return printed => ("Result: " ++ printed)%string
         | Raise e => ("Error calculating '" ++ expression ++ "': " ++ e)%string
         end.
Proof.
  intros A. unfold execute, execute_body. rewrite A. simpl.
  destruct (py_eval expression); reflexivity.
Qed.

(** C10.  [execute] returns a string whatever [eval] does.  An expression
    with a character outside "0123456789+-*/.() " gets the message
    "Error: Invalid characters in expression", and the answer does not
    depend on [eval]: the expression is not evaluated.  Otherwise an
    exception of [eval] is returned as "Error calculating '...': ..." and
    a value as "Result: ...". *)
Theorem execute_returns_a_string py_eval expression :
  exists s,
    execute py_eval expression = Return s /\
    ((exists c, In c (list_ascii_of_string expression) /\ ~ In c allowed_chars) ->
       s = "Error: Invalid characters in expression" /\
       forall other_eval, execute other_eval expression = Return s) /\
    ((forall c, In c (list_ascii_of_string expression) -> In c allowed_chars) ->
       (forall e, py_eval expression = Raise e ->
          s = ("Error calculating '" ++ expression ++ "': " ++ e)%string) /\
       (forall printed, py_eval expression = Return printed ->
          s = ("Result: " ++ printed)%string)).
Proof.
  destruct (all_allowed expression) eqn:A.
  - assert (NA : ~ exists c, In c (list_ascii_of_string expression)
                             /\ ~ In c allowed_chars).
    { intros X. apply all_allowed_false in X. congruence. }
    destruct (py_eval expression) as [printed|e] eqn:E.
    + exists ("Result: " ++ printed)%string.
      split; [rewrite (execute_valid py_eval expression A), E; reflexivity|].
      split; [intros X; contradiction|].
      intros _. split; intros ? Q; inv Q; reflexivity.
    + exists ("Error calculating '" ++ expression ++ "': " ++ e)%string.
      split; [rewrite (execute_valid py_eval expression A), E; reflexivity|].
      split; [intros X; contradiction|].
      intros _. split; intros ? Q; inv Q; reflexivity.
  - exists "Error: Invalid characters in expression".
    split; [apply execute_invalid; exact A|]. split.
    + intros _. split; [reflexivity|]. intros other_eval.
      apply execute_invalid. exact A.
    + intros All. exfalso. apply all_allowed_false in A.
      destruct A as (c & I & N). auto.
Qed.

Lemma execute_returns_a_string_witness :
  exists s,
    execute sample_eval "2 + x" = Return s /\
    ((exists c, In c (list_ascii_of_string "2 + x") /\ ~ In c allowed_chars) ->
       s = "Error: Invalid characters in expression" /\
       forall other_eval, execute other_eval "2 + x" = Return s) /\
    ((forall c, In c (list_ascii_of_string "2 + x") -> In c allowed_chars) ->
       (forall e, sample_eval "2 + x" = Raise e ->
          s = ("Error calculating '" ++ "2 + x" ++ "': " ++ e)%string) /\
       (forall printed, sample_eval "2 + x" = Return printed ->
          s = ("Result: " ++ printed)%string)).
Proof. exact (execute_returns_a_string sample_eval "2 + x"). Defined.

Example execute_examples :
  execute sample_eval "2 + 2" = Return "Result: 4" /\
  execute sample_eval "2 +" = Return "Error calculating '2 +': invalid syntax" /\
  execute sample_eval "2 + x" = Return "Error: Invalid characters in expression" /\
  execute sample_eval "__import__('os')"
    = Return "Error: Invalid characters in expression".
Proof. vm_compute. repeat split. Qed.

(* ================================================================== *)
(** * More about the metadata store *)

Lemma insert_rows_doc_ids n t rows :
  map DocumentMetadata.doc_id (insert_rows n t rows)
  = map DocumentMetadata.doc_id rows.
Proof.
  revert n. induction rows as [|r rows IH]; intros n; simpl; [reflexivity|].
  rewrite IH. reflexivity.
Qed.

Lemma existsb_has_doc_id_in x rows :
  existsb (has_doc_id x) rows = true <-> In x (map DocumentMetadata.doc_id rows).
Proof.
  rewrite existsb_exists, in_map_iff. unfold has_doc_id.
  split; intros (r & A & B).
  - apply String.eqb_eq in B. eauto.
  - exists r. split; [exact B|]. apply String.eqb_eq. exact A.
Qed.

Lemma existsb_has_doc_id_not_in x rows :
  existsb (has_doc_id x) rows = false <-> ~ In x (map DocumentMetadata.doc_id rows).
Proof.
  split.
  - intros H X. apply existsb_has_doc_id_in in X. congruence.
  - intros H. destruct (existsb (has_doc_id x) rows) eqn:E; [|reflexivity].
    exfalso. apply H. apply existsb_has_doc_id_in. exact E.
Qed.

(** The unique constraint lets a batch of new rows in exactly when no
    identifier of the batch is stored already or comes twice. *)
Lemma unique_doc_ids_spec new : forall rows,
  unique_doc_ids rows new = true <->
  (forall r, In r new ->
     ~ In (DocumentMetadata.doc_id r) (map DocumentMetadata.doc_id rows)) /\
  NoDup (map DocumentMetadata.doc_id new).
Proof.
  induction new as [|r new IH]; intros rows; simpl.
  - split; [intros _; split; [intros r [] | constructor] | reflexivity].
  - rewrite andb_true_iff, negb_true_iff, existsb_has_doc_id_not_in, IH.
    rewrite map_app. simpl. split.
    + intros (A & B & C). split.
      * intros r' [<- | I]; [exact A|]. intros X. apply (B r' I).
        apply in_or_app. auto.
      * constructor; [|exact C]. intros X. apply in_map_iff in X.
        destruct X as (r' & E & I). apply (B r' I). apply in_or_app. right.
        simpl. auto.
    + intros (A & B). inversion B as [|? ? N B']; subst. split; [auto|]. split; [|exact B'].
      intros r' I X. apply in_app_or in X. destruct X as [X | [X | []]].
      * apply (A r'); auto.
      * apply N. rewrite X. apply in_map. exact I.
Qed.

Lemma map_new_row_doc_ids docs :
  map DocumentMetadata.doc_id (map new_row docs) = map doc_id docs.
Proof. induction docs as [|d docs IH]; simpl; [reflexivity|]. rewrite IH. reflexivity. Qed.

(** Documents that are not stored only pile up in the session. *)
Lemma session_loop_new docs : forall new w,
  Forall (fun doc => existsb (has_doc_id (doc_id doc)) (table w) = false) docs ->
  session_loop docs new w = (Return (new ++ map new_row docs), w).
Proof.
  induction docs as [|doc docs IH]; intros new w F.
  - simpl. rewrite app_nil_r. reflexivity.
  - inversion F as [|? ? Fd F']; subst. rewrite session_loop_cons, Fd, IH by exact F'.
    rewrite <- app_assoc. reflexivity.
Qed.

Lemma commit_success new change w :
  next_fault (commit_faults w) = false ->
  unique_doc_ids (change (table w)) new = true ->
  exists w',
    commit new change w = (Return tt, w') /\
    table w' = change (table w) ++ insert_rows (next_id w) (import_time w) new /\
    next_id w' = (next_id w + Z.of_nat (length new))%Z /\
    calls w' = calls w ++ [(DbCommit, true)] /\
    commit_faults w' = tl (commit_faults w) /\ outside_db w w'.
Proof.
  intros F U. unfold commit. rewrite F, U. eexists. repeat split.
Qed.

Lemma commit_integrity_error new change w :
  unique_doc_ids (change (table w)) new = false ->
  exists e w',
    commit new change w = (Raise e, w') /\ table w' = table w /\
    calls w' = calls w ++ [(DbCommit, false)].
Proof.
  intros U. unfold commit. rewrite U.
  destruct (next_fault (commit_faults w)); do 2 eexists; repeat split.
Qed.

Lemma create_document_session_stores_new_documents_aux docs w :
  Forall (fun doc => existsb (has_doc_id (doc_id doc)) (table w) = false) docs ->
  NoDup (map doc_id docs) ->
  next_fault (commit_faults w) = false ->
  exists w',
    create_document_session docs w = (Return tt, w') /\
    table w' = table w ++ insert_rows (next_id w) (import_time w) (map new_row docs) /\
    next_id w' = (next_id w + Z.of_nat (length docs))%Z /\
    calls w' = calls w ++ [(DbCommit, true)].
Proof.
  intros F N C.
  assert (U : unique_doc_ids (no_change (table w)) (map new_row docs) = true).
  { apply unique_doc_ids_spec. rewrite map_new_row_doc_ids. split; [|exact N].
    intros r I. apply in_map_iff in I. destruct I as (d & <- & I).
    rewrite Forall_forall in F. apply existsb_has_doc_id_not_in. apply (F d I). }
  destruct (commit_success (map new_row docs) no_change w C U)
    as (w' & E & T & I & K & _).
  exists w'. unfold create_document_session, try_except, bind.
  rewrite (session_loop_new docs [] w F). simpl app. rewrite E.
  split; [reflexivity|]. split; [exact T|].
  split; [rewrite I, length_map; reflexivity|]. exact K.
Qed.

(** X1.  [create_document_session] on documents none of which is stored,
    with identifiers all different, when the commit goes through: one
    row per document is appended, in the order of the documents, keyed
    from the sequence; every document is found by its identifier
    afterwards; one commit was made. *)
Theorem create_document_session_stores_new_documents docs w :
  Forall (fun doc => existsb (has_doc_id (doc_id doc)) (table w) = false) docs ->
  NoDup (map doc_id docs) ->
  next_fault (commit_faults w) = false ->
  exists w',
    create_document_session docs w = (Return tt, w') /\
    table w' = table w ++ insert_rows (next_id w) (import_time w) (map new_row docs) /\
    next_id w' = (next_id w + Z.of_nat (length docs))%Z /\
    calls w' = calls w ++ [(DbCommit, true)] /\
    forall doc, In doc docs ->
      check_document_exists_with_doc_id (doc_id doc) w' = (Return true, w').
Proof.
  intros F N C.
  destruct (create_document_session_stores_new_documents_aux docs w F N C)
    as (w' & E & T & I & K).
  exists w'. split; [exact E|]. split; [exact T|]. split; [exact I|].
  split; [exact K|].
  intros doc D. unfold check_document_exists_with_doc_id, bind, query_first, ret.
  rewrite find_is_not_None.
  replace (existsb (has_doc_id (doc_id doc)) (table w')) with true; [reflexivity|].
  symmetry. apply existsb_has_doc_id_in. rewrite T, map_app, insert_rows_doc_ids,
    map_new_row_doc_ids. apply in_or_app. right. apply in_map. exact D.
Qed.

Lemma create_document_session_stores_new_documents_witness :
  Forall (fun doc => existsb (has_doc_id (doc_id doc)) (table empty_world) = false)
         [essay_document; essay_revision] /\
  NoDup (map doc_id [essay_document; essay_revision]) /\
  next_fault (commit_faults empty_world) = false /\
  exists w',
    create_document_session [essay_document; essay_revision] empty_world
      = (Return tt, w') /\
    table w' = table empty_world
               ++ insert_rows (next_id empty_world) (import_time empty_world)
                              (map new_row [essay_document; essay_revision]) /\
    next_id w' = (next_id empty_world
                  + Z.of_nat (length [essay_document; essay_revision]))%Z /\
    calls w' = calls empty_world ++ [(DbCommit, true)] /\
    forall doc, In doc [essay_document; essay_revision] ->
      check_document_exists_with_doc_id (doc_id doc) w' = (Return true, w').
Proof.
  assert (F : Forall (fun doc => existsb (has_doc_id (doc_id doc))
                                   (table empty_world) = false)
                     [essay_document; essay_revision])
    by (repeat constructor).
  assert (N : NoDup (map doc_id [essay_document; essay_revision])).
  { simpl. constructor; [intros [X | []]; discriminate X|].
    constructor; [intros [] | constructor]. }
  split; [exact F|]. split; [exact N|]. split; [reflexivity|].
  exact (create_document_session_stores_new_documents
           [essay_document; essay_revision] empty_world F N eq_refl).
Defined.

(** X2.  [create_document_session] on documents none of which is stored,
    two of which carry the same identifier: the commit breaks the unique
    constraint on [doc_id], the session is rolled back, and not one row
    of the batch is written: the table is as it was; the caller is not
    told. *)
Theorem create_document_session_rejects_repeated_identifier docs w :
  Forall (fun doc => existsb (has_doc_id (doc_id doc)) (table w) = false) docs ->
  ~ NoDup (map doc_id docs) ->
  exists w',
    create_document_session docs w = (Return tt, w') /\
    table w' = table w /\
    calls w' = calls w ++ [(DbCommit, false)].
Proof.
  intros F N.
  assert (U : unique_doc_ids (no_change (table w)) (map new_row docs) = false).
  { destruct (unique_doc_ids (no_change (table w)) (map new_row docs)) eqn:U;
      [|reflexivity].
    apply unique_doc_ids_spec in U. destruct U as (_ & U).
    rewrite map_new_row_doc_ids in U. contradiction. }
  destruct (commit_integrity_error (map new_row docs) no_change w U)
    as (e & w' & E & T & K).
  exists w'. unfold create_document_session, try_except, bind.
  rewrite (session_loop_new docs [] w F). simpl app. rewrite E.
  repeat split; assumption.
Qed.

Lemma create_document_session_rejects_repeated_identifier_witness :
  Forall (fun doc => existsb (has_doc_id (doc_id doc)) (table empty_world) = false)
         [essay_document; essay_document] /\
  ~ NoDup (map doc_id [essay_document; essay_document]) /\
  exists w',
    create_document_session [essay_document; essay_document] empty_world
      = (Return tt, w') /\
    table w' = table empty_world /\
    calls w' = calls empty_world ++ [(DbCommit, false)].
Proof.
  assert (F : Forall (fun doc => existsb (has_doc_id (doc_id doc))
                                   (table empty_world) = false)
                     [essay_document; essay_document])
    by (repeat constructor).
  assert (N : ~ NoDup (map doc_id [essay_document; essay_document])).
  { simpl. intros X. inversion X as [|? ? Nin _]. apply Nin. left. reflexivity. }
  split; [exact F|]. split; [exact N|].
  exact (create_document_session_rejects_repeated_identifier
           [essay_document; essay_document] empty_world F N).
Defined.

Lemma existsb_has_doc_id_stable x rows rows' :
  map stable rows' = map stable rows ->
  existsb (has_doc_id x) rows' = existsb (has_doc_id x) rows.
Proof.
  revert rows'. induction rows as [|r rows IH]; intros [|r' rows'] H; simpl in *;
    try discriminate; [reflexivity|].
  assert (Hr : stable r' = stable r) by congruence.
  assert (Hrows : map stable rows' = map stable rows) by congruence.
  rewrite (stable_has_doc_id x r r' Hr), (IH _ Hrows). reflexivity.
Qed.

Lemma commit_nothing_new change w r w' :
  commit [] change w = (r, w') ->
  next_id w' = next_id w /\
  (r = Return tt /\ next_fault (commit_faults w) = false /\
   table w' = change (table w)
   \/ (exists e, r = Raise e) /\ next_fault (commit_faults w) = true /\
      table w' = table w).
Proof.
  unfold commit. intros H. simpl in H.
  destruct (next_fault (commit_faults w)) eqn:F; inv H; simpl.
  - split; [reflexivity|]. right. eauto.
  - split; [apply Z.add_0_r|]. left. rewrite app_nil_r. auto.
Qed.

(** Documents that are all stored only refresh rows. *)
Lemma session_loop_known docs : forall w r w',
  Forall (fun doc => existsb (has_doc_id (doc_id doc)) (table w) = true) docs ->
  session_loop docs [] w = (r, w') ->
  map stable (table w') = map stable (table w) /\ next_id w' = next_id w /\
  (r = Return [] \/ exists e, r = Raise e).
Proof.
  induction docs as [|doc docs IH]; intros w r w' F H.
  - inv H. auto.
  - inversion F as [|? ? Fd F']; subst. rewrite session_loop_cons, Fd in H.
    pose proof Fd as E. rewrite <- find_is_not_None in E.
    destruct (find (has_doc_id (doc_id doc)) (table w)); [clear E|discriminate].
    destruct (commit [] _ w) as [rc w1] eqn:C.
    apply commit_nothing_new in C.
    destruct C as (I & [(-> & _ & T) | ((e & ->) & _ & T)]).
    + assert (S1 : map stable (table w1) = map stable (table w)).
      { rewrite T. apply update_first_stable. apply refresh_stable. }
      destruct (IH w1 r w') as (S2 & I2 & R); auto.
      { eapply Forall_impl; [|exact F']. intros d Hd. simpl in Hd.
        rewrite (existsb_has_doc_id_stable _ _ _ S1). exact Hd. }
      repeat split; [congruence | congruence | exact R].
    + inv H. rewrite T. repeat split; eauto.
Qed.

(** X3.  [create_document_session] on documents that are all stored
    already: no row is added, none is removed, and every row keeps its
    key, file name, identifier, type, path and creation date, whether the
    commits succeed or fail. *)
Theorem create_document_session_keeps_known_documents docs w :
  Forall (fun doc => existsb (has_doc_id (doc_id doc)) (table w) = true) docs ->
  exists w',
    create_document_session docs w = (Return tt, w') /\
    map stable (table w') = map stable (table w) /\
    length (table w') = length (table w) /\
    next_id w' = next_id w.
Proof.
  intros F. destruct (create_document_session docs w) as [r w'] eqn:H.
  pose proof (create_document_session_calls _ _ _ _ H) as (-> & _).
  exists w'. split; [reflexivity|].
  unfold create_document_session, try_except, bind in H.
  destruct (session_loop docs [] w) as [rl w1] eqn:L.
  destruct (session_loop_known docs w rl w1 F L) as (S & I & R).
  assert (G : map stable (table w') = map stable (table w) /\ next_id w' = next_id w).
  { destruct R as [-> | (e & ->)].
    - destruct (commit [] no_change w1) as [rc w2] eqn:C.
      apply commit_nothing_new in C. destruct C as (I2 & C).
      assert (w' = w2) as -> by (destruct rc; unfold ret in H; inv H; reflexivity).
      assert (T : table w2 = table w1) by (destruct C as [(_ & _ & T) | (_ & _ & T)]; exact T).
      rewrite T. split; congruence.
    - unfold ret in H. inv H. auto. }
  destruct G as (G1 & G2). split; [exact G1|]. split; [|exact G2].
  apply (f_equal (@length _)) in G1. rewrite !length_map in G1. exact G1.
Qed.

Lemma create_document_session_keeps_known_documents_witness :
  Forall (fun doc => existsb (has_doc_id (doc_id doc)) (table essay_world) = true)
         [essay_document] /\
  exists w',
    create_document_session [essay_document] essay_world = (Return tt, w') /\
    map stable (table w') = map stable (table essay_world) /\
    length (table w') = length (table essay_world) /\
    next_id w' = next_id essay_world.
Proof.
  assert (F : Forall (fun doc => existsb (has_doc_id (doc_id doc))
                                   (table essay_world) = true) [essay_document])
    by (repeat constructor).
  split; [exact F|].
  exact (create_document_session_keeps_known_documents [essay_document] essay_world F).
Defined.

(** X4.  Storing the same new documents twice stores each of them once:
    after a first session that commits, a second session over the same
    documents leaves as many rows as the first. *)
Theorem create_document_session_twice docs w :
  Forall (fun doc => existsb (has_doc_id (doc_id doc)) (table w) = false) docs ->
  NoDup (map doc_id docs) ->
  next_fault (commit_faults w) = false ->
  exists w1 w2,
    create_document_session docs w = (Return tt, w1) /\
    create_document_session docs w1 = (Return tt, w2) /\
    length (table w1) = (length (table w) + length docs)%nat /\
    map DocumentMetadata.doc_id (table w2)
      = map DocumentMetadata.doc_id (table w) ++ map doc_id docs.
Proof.
  intros F N C.
  destruct (create_document_session_stores_new_documents_aux docs w F N C)
    as (w1 & E1 & T1 & K1).
  assert (F1 : Forall (fun doc => existsb (has_doc_id (doc_id doc)) (table w1) = true)
                      docs).
  { apply Forall_forall. intros d D. apply existsb_has_doc_id_in.
    rewrite T1, map_app, insert_rows_doc_ids, map_new_row_doc_ids.
    apply in_or_app. right. apply in_map. exact D. }
  destruct (create_document_session docs w1) as [r w2] eqn:E2.
  pose proof (create_document_session_calls _ _ _ _ E2) as (-> & _).
  assert (S2 : map stable (table w2) = map stable (table w1)).
  { unfold create_document_session, try_except, bind in E2.
    destruct (session_loop docs [] w1) as [rl w'] eqn:L.
    destruct (session_loop_known docs w1 rl w' F1 L) as (S & _ & R).
    destruct R as [-> | (e & ->)].
    - destruct (commit [] no_change w') as [rc w''] eqn:Cm.
      apply commit_nothing_new in Cm. destruct Cm as (_ & Cm).
      assert (w2 = w'') as -> by (destruct rc; unfold ret in E2; inv E2; reflexivity).
      assert (T : table w'' = table w') by (destruct Cm as [(_ & _ & T) | (_ & _ & T)]; exact T).
      rewrite T. exact S.
    - unfold ret in E2. inv E2. exact S. }
  exists w1, w2. split; [exact E1|]. split; [exact E2|]. split.
  - rewrite T1, length_app. f_equal.
    rewrite <- (length_map DocumentMetadata.doc_id), insert_rows_doc_ids,
      map_new_row_doc_ids, length_map. reflexivity.
  - assert (P : forall rows rows', map stable rows' = map stable rows ->
              map DocumentMetadata.doc_id rows' = map DocumentMetadata.doc_id rows).
    { induction rows as [|r rows IH]; intros [|r' rows'] H; simpl in *;
        try discriminate; [reflexivity|].
      assert (Hr : stable r' = stable r) by congruence.
      assert (Hrows : map stable rows' = map stable rows) by congruence.
      rewrite (IH _ Hrows). unfold stable in Hr. congruence. }
    rewrite (P _ _ S2), T1, map_app, insert_rows_doc_ids, map_new_row_doc_ids.
    reflexivity.
Qed.

Lemma create_document_session_twice_witness :
  Forall (fun doc => existsb (has_doc_id (doc_id doc)) (table empty_world) = false)
         [essay_document] /\
  NoDup (map doc_id [essay_document]) /\
  next_fault (commit_faults empty_world) = false /\
  exists w1 w2,
    create_document_session [essay_document] empty_world = (Return tt, w1) /\
    create_document_session [essay_document] w1 = (Return tt, w2) /\
    length (table w1) = (length (table empty_world) + length [essay_document])%nat /\
    map DocumentMetadata.doc_id (table w2)
      = map DocumentMetadata.doc_id (table empty_world) ++ map doc_id [essay_document].
Proof.
  assert (F : Forall (fun doc => existsb (has_doc_id (doc_id doc))
                                   (table empty_world) = false) [essay_document])
    by (repeat constructor).
  assert (N : NoDup (map doc_id [essay_document])).
  { simpl. constructor; [intros [] | constructor]. }
  split; [exact F|]. split; [exact N|]. split; [reflexivity|].
  exact (create_document_session_twice [essay_document] empty_world F N eq_refl).
Defined.

(** X5.  [create_document_session] returns normally whatever the
    documents are and whatever the database does; it leaves the vector
    index and the data folder alone, and the only store calls it makes
    are commits. *)
Theorem create_document_session_only_writes_metadata docs w :
  exists w' commits,
    create_document_session docs w = (Return tt, w') /\
    index w' = index w /\ disk w' = disk w /\
    calls w' = calls w ++ commits /\ Forall is_commit commits.
Proof.
  destruct (create_document_session docs w) as [r w'] eqn:H.
  destruct (create_document_session_calls _ _ _ _ H) as (-> & O & commits & K & F).
  exists w', commits. split; [reflexivity|].
  split; [apply O|]. split; [apply O|]. auto.
Qed.

Lemma remove_first_unique x rows :
  NoDup (map DocumentMetadata.doc_id rows) ->
  existsb (has_doc_id x) (remove_first (has_doc_id x) rows) = false.
Proof.
  induction rows as [|r rows IH]; intros U; simpl; [reflexivity|].
  inversion U as [|? ? Nin U']; subst.
  destruct (has_doc_id x r) eqn:E.
  - apply existsb_has_doc_id_not_in. unfold has_doc_id in E.
    apply String.eqb_eq in E. rewrite <- E. exact Nin.
  - simpl. rewrite E. simpl. apply IH. exact U'.
Qed.

Lemma delete_document_metadata_by_doc_id_run x w :
  delete_document_metadata_by_doc_id x w =
  if existsb (has_doc_id x) (table w) then
    match commit [] (remove_first (has_doc_id x)) w with
    | (Return _, w') => (Return true, w')
    | (Raise _, w') => (Return false, w')
    end
  else (Return false, w).
Proof.
  unfold delete_document_metadata_by_doc_id, try_except, bind, query_first, ret.
  rewrite <- find_is_not_None.
  destruct (find (has_doc_id x) (table w)); simpl; [|reflexivity].
  destruct (commit [] _ w) as [[[]|e] w']; reflexivity.
Qed.

(** X6.  [delete_document_metadata_by_doc_id] never raises.  It returns
    [True] exactly when a row carries the identifier and the commit goes
    through; the first such row is then gone, and under the unique
    constraint no row carries the identifier any more.  When it returns
    [False] the table is as it was. *)
Theorem delete_document_metadata_by_doc_id_result x w :
  exists b w',
    delete_document_metadata_by_doc_id x w = (Return b, w') /\
    (b = true <->
       existsb (has_doc_id x) (table w) = true /\
       next_fault (commit_faults w) = false) /\
    (b = true -> table w' = remove_first (has_doc_id x) (table w)) /\
    (b = true -> NoDup (map DocumentMetadata.doc_id (table w)) ->
       check_document_exists_with_doc_id x w' = (Return false, w')) /\
    (b = false -> table w' = table w).
Proof.
  rewrite delete_document_metadata_by_doc_id_run.
  destruct (existsb (has_doc_id x) (table w)) eqn:E.
  - destruct (commit [] (remove_first (has_doc_id x)) w) as [rc w'] eqn:C.
    apply commit_nothing_new in C.
    destruct C as (_ & [(-> & F & T) | ((e & ->) & F & T)]).
    + exists true, w'. split; [reflexivity|].
      split; [split; auto|]. split; [auto|]. split; [|discriminate].
      intros _ U. unfold check_document_exists_with_doc_id, bind, query_first, ret.
      rewrite find_is_not_None, T, remove_first_unique by exact U. reflexivity.
    + exists false, w'. split; [reflexivity|].
      split; [split; [discriminate | intros (_ & X); congruence]|].
      split; [discriminate|]. split; [discriminate | auto].
  - exists false, w. split; [reflexivity|].
    split; [split; [discriminate | intros (X & _); discriminate X]|].
    split; [discriminate|]. split; [discriminate | auto].
Qed.

Lemma delete_document_metadata_by_doc_id_result_witness :
  exists b w',
    delete_document_metadata_by_doc_id "doc-1" essay_world = (Return b, w') /\
    (b = true <->
       existsb (has_doc_id "doc-1") (table essay_world) = true /\
       next_fault (commit_faults essay_world) = false) /\
    (b = true -> table w' = remove_first (has_doc_id "doc-1") (table essay_world)) /\
    (b = true -> NoDup (map DocumentMetadata.doc_id (table essay_world)) ->
       check_document_exists_with_doc_id "doc-1" w' = (Return false, w')) /\
    (b = false -> table w' = table essay_world).
Proof. exact (delete_document_metadata_by_doc_id_result "doc-1" essay_world). Defined.

(* ================================================================== *)
(** * More about the endpoints *)

Lemma filter_nothing {A} (p : A -> bool) (l : list A) :
  existsb p l = false -> filter (fun a => negb (p a)) l = l.
Proof.
  induction l as [|a l IH]; simpl; [reflexivity|].
  destruct (p a); simpl; [discriminate|]. intros H. rewrite IH by exact H. reflexivity.
Qed.

Lemma existsb_filter_negb {A} (p : A -> bool) (l : list A) :
  existsb p (filter (fun a => negb (p a)) l) = false.
Proof.
  induction l as [|a l IH]; simpl; [reflexivity|].
  destruct (p a) eqn:E; simpl; [exact IH|]. rewrite E. exact IH.
Qed.

Lemma delete_from_disk_run name w :
  delete_from_disk name w
  = (Return (delete_done name),
     if existsb (path_is (data_path name)) (disk w)
     then set_disk w (remove_file (data_path name) (disk w))
     else w).
Proof.
  unfold delete_from_disk, delete_file, bind, path_exists, ret.
  destruct (existsb _ (disk w)); reflexivity.
Qed.

Lemma disk_after_delete name w :
  disk (if existsb (path_is (data_path name)) (disk w)
        then set_disk w (remove_file (data_path name) (disk w))
        else w)
  = remove_file (data_path name) (disk w).
Proof.
  destruct (existsb _ (disk w)) eqn:E; [reflexivity|].
  unfold remove_file. rewrite filter_nothing by exact E. reflexivity.
Qed.

Lemma find_filename_after_remove name rows : forall row,
  NoDup (map DocumentMetadata.doc_id rows) ->
  NoDup (map DocumentMetadata.filename rows) ->
  find (has_filename name) rows = Some row ->
  find (has_filename name)
       (remove_first (has_doc_id (DocumentMetadata.doc_id row)) rows) = None.
Proof.
  induction rows as [|r rows IH]; intros row U V F; simpl in *; [discriminate|].
  inversion U as [|? ? Nu U']; inversion V as [|? ? Nv V']; subst.
  destruct (has_filename name r) eqn:Fn.
  - inv F. unfold has_doc_id at 1. rewrite String.eqb_refl.
    destruct (find (has_filename name) rows) as [r'|] eqn:F'; [|reflexivity].
    exfalso. apply Nv. apply find_some in F'. destruct F' as (I & F').
    unfold has_filename in *. apply String.eqb_eq in Fn, F'.
    rewrite Fn, <- F'. apply in_map. exact I.
  - destruct (has_doc_id (DocumentMetadata.doc_id row) r) eqn:Fx.
    + exfalso. apply Nu. unfold has_doc_id in Fx. apply String.eqb_eq in Fx.
      rewrite Fx. apply in_map. apply find_some in F. apply F.
    + simpl. rewrite Fn. apply IH; auto.
Qed.

(** X7.  Deleting a stored document when the agent runs and neither the
    index nor the commit fails: the endpoint reports success after one
    index deletion and one commit; the first row with the identifier, the
    index entries of the identifier and the file are gone.  When file
    names and identifiers are unique in the table, deleting the same name
    again answers "Could not retrieve document ID from filename." and
    changes nothing. *)
Theorem delete_removes_row_index_entries_and_file name w row :
  find (has_filename name) (table w) = Some row ->
  DocumentMetadata.doc_id row <> "" ->
  agent_instance w = true ->
  next_fault (index_faults w) = false ->
  next_fault (commit_faults w) = false ->
  exists w',
    delete_file_endpoint name w = (Return (delete_done name), w') /\
    table w' = remove_first (has_doc_id (DocumentMetadata.doc_id row)) (table w) /\
    index w' = filter (fun e => negb (ref_doc_is (DocumentMetadata.doc_id row) e))
                      (index w) /\
    disk w' = remove_file (data_path name) (disk w) /\
    calls w' = calls w ++ [(IndexDeleteRefDoc (DocumentMetadata.doc_id row), true);
                           (DbCommit, true)] /\
    (NoDup (map DocumentMetadata.doc_id (table w)) ->
     NoDup (map DocumentMetadata.filename (table w)) ->
     delete_file_endpoint name w' = (Return (no_document_id name), w')).
Proof.
  intros N X A Fi Fc.
  rewrite (delete_file_endpoint_run name w row N X A).
  destruct (index_delete_ref_doc (DocumentMetadata.doc_id row) w) as [ri w1] eqn:I.
  unfold index_delete_ref_doc in I. apply index_call_inv in I.
  destruct I as (O1 & [(-> & _ & K1 & I1) | (_ & Fi' & _)]); [|congruence].
  destruct O1 as (T1 & _ & D1 & _ & C1 & _).
  rewrite delete_document_metadata_by_doc_id_run.
  rewrite T1, (find_some_existsb _ (has_doc_id (DocumentMetadata.doc_id row)) _ _ N)
    by apply String.eqb_refl.
  assert (U : unique_doc_ids
                (remove_first (has_doc_id (DocumentMetadata.doc_id row)) (table w1)) []
              = true) by reflexivity.
  destruct (commit_success [] (remove_first (has_doc_id (DocumentMetadata.doc_id row)))
              w1 ltac:(rewrite C1; exact Fc) U)
    as (w2 & E2 & T2 & _ & K2 & _ & O2).
  rewrite E2. cbn [snd]. rewrite delete_from_disk_run.
  eexists. split; [reflexivity|].
  assert (T : table w2 = remove_first (has_doc_id (DocumentMetadata.doc_id row)) (table w)).
  { rewrite T2, T1. simpl. apply app_nil_r. }
  destruct O2 as (I2 & D2 & _).
  assert (Tf : table (if existsb (path_is (data_path name)) (disk w2)
                      then set_disk w2 (remove_file (data_path name) (disk w2))
                      else w2) = table w2)
    by (destruct (existsb _ (disk w2)); reflexivity).
  split; [rewrite Tf; exact T|].
  split; [destruct (existsb _ (disk w2)); simpl; congruence|].
  split; [rewrite disk_after_delete; congruence|].
  split.
  { replace (calls _) with (calls w2) by (destruct (existsb _ (disk w2)); reflexivity).
    rewrite K2, K1, <- app_assoc. reflexivity. }
  intros Ud Uf. apply delete_file_endpoint_other. left. rewrite Tf, T.
  apply find_filename_after_remove; assumption.
Qed.

Lemma delete_removes_row_index_entries_and_file_witness :
  find (has_filename "essay.txt") (table essay_world) = Some essay_row /\
  DocumentMetadata.doc_id essay_row <> "" /\
  agent_instance essay_world = true /\
  next_fault (index_faults essay_world) = false /\
  next_fault (commit_faults essay_world) = false /\
  exists w',
    delete_file_endpoint "essay.txt" essay_world
      = (Return (delete_done "essay.txt"), w') /\
    table w' = remove_first (has_doc_id (DocumentMetadata.doc_id essay_row))
                            (table essay_world) /\
    index w' = filter (fun e => negb (ref_doc_is (DocumentMetadata.doc_id essay_row) e))
                      (index essay_world) /\
    disk w' = remove_file (data_path "essay.txt") (disk essay_world) /\
    calls w' = calls essay_world
               ++ [(IndexDeleteRefDoc (DocumentMetadata.doc_id essay_row), true);
                   (DbCommit, true)] /\
    (NoDup (map DocumentMetadata.doc_id (table essay_world)) ->
     NoDup (map DocumentMetadata.filename (table essay_world)) ->
     delete_file_endpoint "essay.txt" w' = (Return (no_document_id "essay.txt"), w')).
Proof.
  assert (N : find (has_filename "essay.txt") (table essay_world) = Some essay_row)
    by (vm_compute; reflexivity).
  assert (X : DocumentMetadata.doc_id essay_row <> "") by (simpl; discriminate).
  split; [exact N|]. split; [exact X|]. repeat (split; [reflexivity|]).
  exact (delete_removes_row_index_entries_and_file "essay.txt" essay_world essay_row
           N X eq_refl eq_refl eq_refl).
Defined.

(** X8.  Deleting a stored document while the agent is not initialised:
    the file is removed from the data folder and the endpoint reports
    that the file was deleted from disk and vector store, yet no store is
    called: the metadata row and the index are as they were. *)
Theorem delete_without_agent_only_removes_the_file name w row :
  find (has_filename name) (table w) = Some row ->
  DocumentMetadata.doc_id row <> "" ->
  agent_instance w = false ->
  exists w',
    delete_file_endpoint name w = (Return (delete_done name), w') /\
    disk w' = remove_file (data_path name) (disk w) /\
    table w' = table w /\ index w' = index w /\ calls w' = calls w.
Proof.
  intros N X A.
  rewrite (delete_file_endpoint_no_agent name w row N X A), delete_from_disk_run.
  eexists. split; [reflexivity|]. split; [apply disk_after_delete|].
  destruct (existsb _ (disk w)); repeat split.
Qed.

Lemma delete_without_agent_only_removes_the_file_witness :
  find (has_filename "essay.txt") (table essay_world_without_agent) = Some essay_row /\
  DocumentMetadata.doc_id essay_row <> "" /\
  agent_instance essay_world_without_agent = false /\
  exists w',
    delete_file_endpoint "essay.txt" essay_world_without_agent
      = (Return (delete_done "essay.txt"), w') /\
    disk w' = remove_file (data_path "essay.txt") (disk essay_world_without_agent) /\
    table w' = table essay_world_without_agent /\
    index w' = index essay_world_without_agent /\
    calls w' = calls essay_world_without_agent.
Proof.
  assert (N : find (has_filename "essay.txt") (table essay_world_without_agent)
              = Some essay_row) by (vm_compute; reflexivity).
  assert (X : DocumentMetadata.doc_id essay_row <> "") by (simpl; discriminate).
  split; [exact N|]. split; [exact X|]. split; [reflexivity|].
  exact (delete_without_agent_only_removes_the_file "essay.txt"
           essay_world_without_agent essay_row N X eq_refl).
Defined.


Lemma find_app_none {A} (p : A -> bool) l1 l2 :
  find p l1 = None -> find p (l1 ++ l2) = find p l2.
Proof.
  induction l1 as [|a l1 IH]; simpl; [reflexivity|].
  destruct (p a); [discriminate | exact IH].
Qed.

Lemma insert_rows_filenames n t rows :
  map DocumentMetadata.filename (insert_rows n t rows)
  = map DocumentMetadata.filename rows.
Proof.
  revert n. induction rows as [|r rows IH]; intros n; simpl; [reflexivity|].
  rewrite IH. reflexivity.
Qed.

Lemma find_has_filename_in name rows :
  In name (map DocumentMetadata.filename rows) ->
  exists row, find (has_filename name) rows = Some row.
Proof.
  induction rows as [|r rows IH]; simpl; [intros []|].
  intros [E | I].
  - unfold has_filename. rewrite E, String.eqb_refl. eauto.
  - destruct (has_filename name r); [eauto | auto].
Qed.

Lemma upload_file_taken f w row :
  find (has_filename (filename f)) (table w) = Some row ->
  upload_file f w = (Return (upload_already_exists (filename f)), w).
Proof.
  intros N.
  cbv beta iota zeta delta [upload_file try_except bind ret query_first
    check_document_exists_with_filename].
  rewrite N. reflexivity.
Qed.

(** The upload of a new file up to the end of the metadata session, when
    the documents read are new and the commit goes through. *)
Lemma upload_file_after_session f w docs rest :
  find (has_filename (filename f)) (table w) = None ->
  next_fault (disk_faults w) = false ->
  agent_instance w = true ->
  load_data_results w = Return docs :: rest ->
  Forall (fun doc => existsb (has_doc_id (doc_id doc)) (table w) = false) docs ->
  NoDup (map doc_id docs) ->
  next_fault (commit_faults w) = false ->
  exists w2,
    upload_file f w =
      match for_each docs index_insert w2 with
      | (Return _, w3) =>
          (Return (upload_indexed (filename f) (data_path (filename f))), w3)
      | (Raise e, w3) => (Return (upload_exception e), w3)
      end /\
    table w2 = table w ++ insert_rows (next_id w) (import_time w) (map new_row docs) /\
    index w2 = index w /\ index_faults w2 = index_faults w /\
    disk w2 = write_file (data_path (filename f)) (file f) (disk w) /\
    calls w2 = calls w ++ [(DbCommit, true)].
Proof.
  intros N D A L F U C.
  rewrite (upload_file_run f w N D A), add_file_context_to_agent_run.
  unfold saved at 1. simpl disk. rewrite path_exists_after_write. fold (saved f w).
  unfold load_data. simpl load_data_results. rewrite L.
  destruct (create_document_session_stores_new_documents_aux docs
              (set_load_data_results (saved f w) rest) F U C)
    as (w2 & E & T & _ & K).
  pose proof (create_document_session_calls _ _ _ _ E) as (_ & O & _).
  rewrite E. cbn [snd]. exists w2. split.
  { destruct (for_each docs index_insert w2) as [[[]|e] w3]; reflexivity. }
  split; [exact T|]. split; [apply O|]. split; [apply O|]. split; [apply O|]. exact K.
Qed.



(** X10.  An upload whose first index insert fails, after the commit of
    the rows went through, cannot be tried again: the index is as it
    was, yet the file name is taken: [GET /files/] lists it, and a
    second upload of the file is refused as already in the database.
    (The reader gives the file name of the upload to a document.) *)
Theorem upload_cannot_be_retried_after_index_failure f w docs rest doc :
  find (has_filename (filename f)) (table w) = None ->
  next_fault (disk_faults w) = false ->
  agent_instance w = true ->
  load_data_results w = Return docs :: rest ->
  Forall (fun doc => existsb (has_doc_id (doc_id doc)) (table w) = false) docs ->
  NoDup (map doc_id docs) ->
  next_fault (commit_faults w) = false ->
  next_fault (index_faults w) = true ->
  In doc docs ->
  Metadata.file_name (metadata doc) = Some (filename f) ->
  exists w' files,
    upload_file f w = (Return (upload_exception "index error"), w') /\
    index w' = index w /\
    list_files w' = (Return (Files files), w') /\ In (filename f) files /\
    upload_file f w' = (Return (upload_already_exists (filename f)), w').
Proof.
  intros N D A L F U C Fi I Fn.
  destruct (upload_file_after_session f w docs rest N D A L F U C)
    as (w2 & E & T2 & I2 & F2 & D2 & K2).
  destruct docs as [|d docs]; [destruct I|].
  simpl for_each in E. unfold bind, index_insert at 1, index_call in E.
  rewrite F2, Fi in E.
  match type of E with _ = (_, ?w3) => set (w' := w3) in * end.
  assert (T : table w' = table w2) by reflexivity.
  assert (Listed : In (filename f) (map DocumentMetadata.filename (table w'))).
  { rewrite T, T2, map_app, insert_rows_filenames. apply in_or_app. right.
    apply in_map_iff. exists (new_row doc). split; [|apply in_map; exact I].
    unfold new_row. simpl. rewrite Fn. reflexivity. }
  exists w', (map DocumentMetadata.filename (table w')).
  split; [exact E|]. split; [exact I2|]. split; [reflexivity|]. split; [exact Listed|].
  destruct (find_has_filename_in _ _ Listed) as (row & R).
  apply (upload_file_taken f w' row R).
Qed.

Lemma upload_cannot_be_retried_after_index_failure_witness :
  find (has_filename (filename essay_upload))
       (table (set_index_faults empty_world [true])) = None /\
  next_fault (disk_faults (set_index_faults empty_world [true])) = false /\
  agent_instance (set_index_faults empty_world [true]) = true /\
  load_data_results (set_index_faults empty_world [true])
    = Return [essay_document] :: [] /\
  Forall (fun doc => existsb (has_doc_id (doc_id doc))
                       (table (set_index_faults empty_world [true])) = false)
         [essay_document] /\
  NoDup (map doc_id [essay_document]) /\
  next_fault (commit_faults (set_index_faults empty_world [true])) = false /\
  next_fault (index_faults (set_index_faults empty_world [true])) = true /\
  In essay_document [essay_document] /\
  Metadata.file_name (metadata essay_document) = Some (filename essay_upload) /\
  exists w' files,
    upload_file essay_upload (set_index_faults empty_world [true])
      = (Return (upload_exception "index error"), w') /\
    index w' = index (set_index_faults empty_world [true]) /\
    list_files w' = (Return (Files files), w') /\
    In (filename essay_upload) files /\
    upload_file essay_upload w'
      = (Return (upload_already_exists (filename essay_upload)), w').
Proof.
  assert (F : Forall (fun doc => existsb (has_doc_id (doc_id doc))
                                   (table (set_index_faults empty_world [true]))
                                 = false) [essay_document])
    by (repeat constructor).
  assert (N : NoDup (map doc_id [essay_document])).
  { simpl. constructor; [intros [] | constructor]. }
  assert (I : In essay_document [essay_document]) by (left; reflexivity).
  repeat (split; [reflexivity|]). split; [exact F|]. split; [exact N|].
  split; [reflexivity|]. split; [reflexivity|]. split; [exact I|].
  split; [reflexivity|].
  exact (upload_cannot_be_retried_after_index_failure essay_upload
           (set_index_faults empty_world [true]) [essay_document] [] essay_document
           eq_refl eq_refl eq_refl eq_refl F N eq_refl eq_refl I eq_refl).
Defined.



(** X12.  An update whose first index call fails answers with the error
    and status "update file failed"; the metadata table and the index
    are as they were, one failed [update_ref_doc] tagged with the stored
    identifier is logged, and the file in the data folder is already the
    new one. *)
Theorem update_index_failure_keeps_stores_but_overwrites_file
    f w row doc docs rest :
  find (has_filename (filename f)) (table w) = Some row ->
  DocumentMetadata.doc_id row <> "" ->
  next_fault (disk_faults w) = false ->
  agent_instance w = true ->
  load_data_results w = Return (doc :: docs) :: rest ->
  next_fault (index_faults w) = true ->
  exists w',
    update_file f w = (Return (update_exception "index error"), w') /\
    table w' = table w /\ index w' = index w /\
    disk w' = write_file (data_path (filename f)) (file f) (disk w) /\
    calls w' = calls w ++ [(IndexUpdateRefDoc (DocumentMetadata.doc_id row), false)].
Proof.
  intros N X D A L Fi.
  rewrite (update_file_run f w row N X D A), update_file_context_in_agent_run.
  unfold saved at 1. simpl disk. rewrite path_exists_after_write. fold (saved f w).
  unfold load_data. simpl load_data_results. rewrite L.
  simpl for_each. unfold bind, index_update_ref_doc at 1, index_call.
  simpl index_faults. rewrite Fi.
  eexists. split; [reflexivity|]. repeat split.
Qed.

Lemma update_index_failure_keeps_stores_but_overwrites_file_witness :
  find (has_filename (filename essay_revision_upload))
       (table (set_index_faults revision_world [true])) = Some essay_row /\
  DocumentMetadata.doc_id essay_row <> "" /\
  next_fault (disk_faults (set_index_faults revision_world [true])) = false /\
  agent_instance (set_index_faults revision_world [true]) = true /\
  load_data_results (set_index_faults revision_world [true])
    = Return (essay_revision :: []) :: [] /\
  next_fault (index_faults (set_index_faults revision_world [true])) = true /\
  exists w',
    update_file essay_revision_upload (set_index_faults revision_world [true])
      = (Return (update_exception "index error"), w') /\
    table w' = table (set_index_faults revision_world [true]) /\
    index w' = index (set_index_faults revision_world [true]) /\
    disk w' = write_file (data_path (filename essay_revision_upload))
                         (file essay_revision_upload)
                         (disk (set_index_faults revision_world [true])) /\
    calls w' = calls (set_index_faults revision_world [true])
               ++ [(IndexUpdateRefDoc (DocumentMetadata.doc_id essay_row), false)].
Proof.
  assert (N : find (has_filename (filename essay_revision_upload))
                   (table (set_index_faults revision_world [true])) = Some essay_row)
    by (vm_compute; reflexivity).
  assert (X : DocumentMetadata.doc_id essay_row <> "") by (simpl; discriminate).
  split; [exact N|]. split; [exact X|]. repeat (split; [reflexivity|]).
  exact (update_index_failure_keeps_stores_but_overwrites_file essay_revision_upload
           (set_index_faults revision_world [true]) essay_row essay_revision [] []
           N X eq_refl eq_refl eq_refl eq_refl).
Defined.

(* ================================================================== *)
(** * More about the context evaluator *)

(** X13.  The evaluator takes the score of the reply as it is: when the
    reply decodes to an object whose score is the number [x], the
    relevance (or completeness) score is [x], whatever [x] is: nothing
    checks that it lies between 0.0 and 1.0.  The explanation and the
    key points are those of the reply, or the empty string and the empty
    list. *)
Theorem evaluator_does_not_clamp_the_score
    json_loads float_of_int float_of_str query context w reply rest d x :
  completions w = Return reply :: rest ->
  json_loads (json_text reply) = Loaded (JDict d) ->
  entry d "score" (JFloat 0) = JFloat x ->
  evaluate_relevance json_loads float_of_int float_of_str query context w
  = (Return (Relevance.mk x (entry d "explanation" (JStr ""))
                            (entry d "key_points" (JList []))),
     set_completions w rest) /\
  evaluate_completeness json_loads float_of_int float_of_str query context w
  = (Return (Completeness.mk x (entry d "explanation" (JStr ""))
                               (entry d "missing_aspects" (JList []))),
     set_completions w rest).
Proof.
  intros C L S.
  unfold evaluate_relevance, evaluate_completeness, try_except, bind,
    acomplete, lift, _extract_json, ret, dict_get.
  rewrite C, L. fold (entry d "score" (JFloat 0)). rewrite S. simpl float_.
  split; reflexivity.
Qed.

Lemma evaluator_does_not_clamp_the_score_witness :
  completions overrating_world = Return reply_score_75 :: [Return reply_score_75] /\
  overrating_json_loads (json_text reply_score_75)
    = Loaded (JDict [("score", JFloat 7.5)]) /\
  entry [("score", JFloat 7.5)] "score" (JFloat 0) = JFloat 7.5 /\
  evaluate_relevance overrating_json_loads sample_float_of_int sample_float_of_str
    "What is the essay about?" "It is about greetings." overrating_world
  = (Return (Relevance.mk 7.5 (entry [("score", JFloat 7.5)] "explanation" (JStr ""))
                              (entry [("score", JFloat 7.5)] "key_points" (JList []))),
     set_completions overrating_world [Return reply_score_75]) /\
  evaluate_completeness overrating_json_loads sample_float_of_int sample_float_of_str
    "What is the essay about?" "It is about greetings." overrating_world
  = (Return (Completeness.mk 7.5
               (entry [("score", JFloat 7.5)] "explanation" (JStr ""))
               (entry [("score", JFloat 7.5)] "missing_aspects" (JList []))),
     set_completions overrating_world [Return reply_score_75]).
Proof.
  assert (C : completions overrating_world
              = Return reply_score_75 :: [Return reply_score_75]) by reflexivity.
  assert (L : overrating_json_loads (json_text reply_score_75)
              = Loaded (JDict [("score", JFloat 7.5)])) by (vm_compute; reflexivity).
  assert (S : entry [("score", JFloat 7.5)] "score" (JFloat 0) = JFloat 7.5)
    by reflexivity.
  split; [exact C|]. split; [exact L|]. split; [exact S|].
  exact (evaluator_does_not_clamp_the_score overrating_json_loads sample_float_of_int
           sample_float_of_str "What is the essay about?" "It is about greetings."
           overrating_world reply_score_75 [Return reply_score_75]
           [("score", JFloat 7.5)] 7.5%float C L S).
Defined.

(** Two replies with the score 7.5 give an overall score of 7.5 and the
    high recommendation. *)
Example overall_score_above_one :
  evaluate_quality overrating_json_loads sample_float_of_int sample_float_of_str
                   "What is the essay about?" "It is about greetings."
                   overrating_world
  = (Return
       (Quality.mk 7.5
          (Relevance.mk 7.5 (JStr "") (JList []))
          (Completeness.mk 7.5 (JStr "") (JList []))
          "High quality context - suitable for use"),
     empty_world).
Proof. vm_compute. reflexivity. Qed.

(** ** The two patterns of [_extract_json] *)

Lemma append_assoc (a b c : string) : ((a ++ b) ++ c = a ++ (b ++ c))%string.
Proof. induction a as [|x a IH]; simpl; [reflexivity|]. rewrite IH. reflexivity. Qed.

Lemma occurs_append c a b : occurs c (a ++ b)%string <-> occurs c a \/ occurs c b.
Proof.
  unfold occurs. induction a as [|x a IH]; simpl.
  - split; [auto | intros [[] | H]; exact H].
  - rewrite IH. split; [intros [H | [H | H]] | intros [[H | H] | H]]; auto.
Qed.

Lemma strip_prefix_some p : forall s t,
  strip_prefix p s = Some t -> s = (p ++ t)%string.
Proof.
  induction p as [|a p IH]; intros [|b s] t H; simpl in *; try discriminate.
  - inv H. reflexivity.
  - inv H. reflexivity.
  - destruct (Ascii.eqb_spec a b); [|discriminate]. subst.
    rewrite (IH _ _ H). reflexivity.
Qed.

Lemma skip_spaces_suffix s : exists spaces, s = (spaces ++ skip_spaces s)%string.
Proof.
  induction s as [|c s (spaces & IH)]; simpl.
  - exists "". reflexivity.
  - destruct (is_space c).
    + exists (String c spaces). simpl. rewrite <- IH. reflexivity.
    + exists "". reflexivity.
Qed.

Lemma up_to_last_brace_none s :
  up_to_last_brace s = None <-> ~ occurs "}" s.
Proof.
  unfold occurs. induction s as [|c s IH]; simpl.
  - split; [intros _ [] | reflexivity].
  - destruct (up_to_last_brace s) as [r|].
    + split; [discriminate|]. intros H.
      assert (X : Some r = None) by (apply IH; intros X; apply H; right; exact X).
      discriminate X.
    + destruct (Ascii.eqb_spec c "}"%char) as [-> | N].
      * split; [discriminate | intros H; exfalso; apply H; left; reflexivity].
      * split; [|reflexivity]. intros _ [X | X]; [congruence|].
        apply (proj1 IH eq_refl X).
Qed.

Lemma up_to_last_brace_some s : forall r,
  up_to_last_brace s = Some r ->
  exists body post,
    r = (body ++ "}")%string /\ s = (r ++ post)%string /\ ~ occurs "}" post.
Proof.
  induction s as [|c s IH]; intros r H; simpl in H; [discriminate|].
  destruct (up_to_last_brace s) as [r'|] eqn:U.
  - inv H. destruct (IH r' eq_refl) as (body & post & -> & E & N).
    exists (String c body), post. simpl. rewrite <- E. auto.
  - destruct (Ascii.eqb_spec c "}"%char) as [-> | N]; [|discriminate]. inv H.
    exists "", s. simpl. repeat split. apply up_to_last_brace_none. exact U.
Qed.

Lemma search_object_some s : forall g,
  search_object s = Some g ->
  exists pre body post,
    s = (pre ++ g ++ post)%string /\ g = ("{" ++ body ++ "}")%string /\
    ~ occurs "{" pre /\ ~ occurs "}" post.
Proof.
  induction s as [|c s IH]; intros g H; simpl in H; [discriminate|].
  destruct (Ascii.eqb_spec c "{"%char) as [-> | N].
  - destruct (up_to_last_brace s) as [r|] eqn:U.
    + inv H. destruct (up_to_last_brace_some s r U) as (body & post & -> & E & Np).
      exists "", body, post. simpl. rewrite <- E. repeat split; auto; try (intros X; exact X).
    + exfalso. destruct (IH g H) as (pre & body & post & E & -> & _).
      apply up_to_last_brace_none in U. apply U. rewrite E.
      apply occurs_append. right. apply occurs_append. left.
      simpl. right. apply occurs_append. right. left. reflexivity.
  - destruct (IH g H) as (pre & body & post & E & -> & Np & Nq).
    exists (String c pre), body, post.
    split; [change (String c s = String c (pre ++ ("{" ++ body ++ "}") ++ post));
            f_equal; exact E|].
    repeat split; auto. intros [X | X]; [congruence | exact (Np X)].
Qed.

Lemma search_object_found pre mid post :
  search_object (pre ++ "{" ++ mid ++ "}" ++ post)%string <> None.
Proof.
  assert (B : forall a, occurs "}" (a ++ mid ++ "}" ++ post)%string).
  { intros a. apply occurs_append. right. apply occurs_append. right.
    left. reflexivity. }
  induction pre as [|c pre IH].
  - change (search_object (String "{" (mid ++ "}" ++ post)) <> None).
    cbn [search_object]. rewrite Ascii.eqb_refl.
    destruct (up_to_last_brace (mid ++ "}" ++ post)) as [r|] eqn:U; [discriminate|].
    exfalso. apply up_to_last_brace_none in U. apply U. apply (B "").
  - change (search_object (String c (pre ++ "{" ++ mid ++ "}" ++ post)) <> None).
    cbn [search_object].
    destruct (Ascii.eqb c "{"); [|exact IH].
    destruct (up_to_last_brace (pre ++ "{" ++ mid ++ "}" ++ post)) as [r|] eqn:U;
      [discriminate|].
    exfalso. apply up_to_last_brace_none in U. apply U.
    apply occurs_append. right. apply (B "{").
Qed.

(** X14.  The pattern [\{.*\}] of [_extract_json]: a match runs from the
    first opening brace of the text to its last closing brace, and there
    is a match exactly when some closing brace comes after some opening
    brace. *)
Theorem search_object_takes_first_to_last_brace s :
  (forall g, search_object s = Some g ->
     exists pre body post,
       s = (pre ++ g ++ post)%string /\ g = ("{" ++ body ++ "}")%string /\
       ~ occurs "{" pre /\ ~ occurs "}" post) /\
  (search_object s = None <->
     ~ exists pre mid post, s = (pre ++ "{" ++ mid ++ "}" ++ post)%string).
Proof.
  split; [apply search_object_some|]. split.
  - intros H (pre & mid & post & E). subst s. exact (search_object_found _ _ _ H).
  - intros H. destruct (search_object s) as [g|] eqn:S; [|reflexivity].
    exfalso. apply H.
    destruct (search_object_some s g S) as (pre & body & post & E & -> & _).
    exists pre, body, post. rewrite E. simpl. rewrite append_assoc. reflexivity.
Qed.

Lemma search_object_takes_first_to_last_brace_witness :
  search_object "xx {a} yy {b} zz" = Some "{a} yy {b}" /\
  exists pre body post,
    "xx {a} yy {b} zz" = (pre ++ "{a} yy {b}" ++ post)%string /\
    "{a} yy {b}" = ("{" ++ body ++ "}")%string /\
    ~ occurs "{" pre /\ ~ occurs "}" post.
Proof.
  assert (S : search_object "xx {a} yy {b} zz" = Some "{a} yy {b}")
    by (vm_compute; reflexivity).
  split; [exact S|].
  exact (proj1 (search_object_takes_first_to_last_brace "xx {a} yy {b} zz")
           "{a} yy {b}" S).
Defined.

Lemma close_fenced_some s : forall r,
  close_fenced s = Some r ->
  exists body post, r = (body ++ "}")%string /\ s = (r ++ post)%string.
Proof.
  induction s as [|c s IH]; intros r H; cbn [close_fenced] in H; [discriminate|].
  destruct (Ascii.eqb c "}" && is_not_None (strip_prefix fence (skip_spaces s)))
    eqn:B.
  - apply andb_true_iff in B. destruct B as [B _]. apply Ascii.eqb_eq in B.
    subst c. inv H. exists "", s. split; reflexivity.
  - destruct (close_fenced s) as [r'|]; [|discriminate]. cbn [option_map] in H. inv H.
    destruct (IH r' eq_refl) as (body & post & -> & E).
    exists (String c body), post. simpl. rewrite <- E. split; reflexivity.
Qed.

Lemma match_fenced_some s g :
  match_fenced s = Some g ->
  exists pre body post,
    s = (pre ++ g ++ post)%string /\ g = ("{" ++ body ++ "}")%string.
Proof.
  unfold match_fenced. intros H.
  destruct (strip_prefix fence s) as [s1|] eqn:P; [|discriminate].
  apply strip_prefix_some in P.
  assert (exists tag, s1 = (tag ++ get (strip_prefix "json" s1) s1)%string) as (tag & T).
  { destruct (strip_prefix "json" s1) as [s2|] eqn:J; simpl.
    - exists "json". apply strip_prefix_some. exact J.
    - exists "". reflexivity. }
  destruct (skip_spaces_suffix (get (strip_prefix "json" s1) s1)) as (spaces & S).
  destruct (skip_spaces (get (strip_prefix "json" s1) s1)) as [|c s3]; [discriminate|].
  destruct (Ascii.eqb_spec c "{"%char) as [-> | N].
  2:{ exfalso. revert H. destruct c as [[] [] [] [] [] [] [] []]; try discriminate.
      exfalso. apply N. reflexivity. }
  destruct (close_fenced s3) as [r|] eqn:C; [|discriminate].
  cbn [option_map] in H. injection H as G.
  apply close_fenced_some in C. destruct C as (body & post & R & E).
  exists (fence ++ tag ++ spaces)%string, body, post.
  split; [|rewrite <- G, R; reflexivity].
  rewrite P, T, S, E, <- G, !append_assoc. reflexivity.
Qed.

Lemma search_fenced_some s : forall g,
  search_fenced s = Some g ->
  exists pre body post,
    s = (pre ++ g ++ post)%string /\ g = ("{" ++ body ++ "}")%string.
Proof.
  induction s as [|c s IH]; intros g H.
  - discriminate H.
  - cbn [search_fenced] in H.
    destruct (match_fenced (String c s)) as [g'|] eqn:M.
    + inv H. apply match_fenced_some. exact M.
    + destruct (IH g H) as (pre & body & post & E & G).
      exists (String c pre), body, post. split; [|exact G].
      simpl. rewrite <- E. reflexivity.
Qed.

Lemma search_fenced_needs_brace s :
  ~ occurs "{" s -> search_fenced s = None.
Proof.
  intros N. destruct (search_fenced s) as [g|] eqn:S; [|reflexivity].
  exfalso. apply N.
  destruct (search_fenced_some s g S) as (pre & body & post & -> & ->).
  apply occurs_append. right. left. reflexivity.
Qed.

(** X15.  The text that [_extract_json] hands to [json.loads] is either
    the whole reply, when neither pattern matches, or a part of the
    reply that opens with a brace and ends with a brace.  A reply
    without an opening brace is handed over whole. *)
Theorem json_text_is_the_reply_or_a_braced_part text :
  (json_text text = text /\ search_fenced text = None /\ search_object text = None
   \/
   exists pre body post,
     text = (pre ++ json_text text ++ post)%string /\
     json_text text = ("{" ++ body ++ "}")%string) /\
  (~ occurs "{" text -> json_text text = text).
Proof.
  split.
  - unfold json_text.
    destruct (search_fenced text) as [g|] eqn:F.
    + right. apply search_fenced_some. exact F.
    + destruct (search_object text) as [g|] eqn:O.
      * right. destruct (search_object_some text g O) as (pre & body & post & E & G & _).
        eauto.
      * left. auto.
  - intros N. unfold json_text. rewrite (search_fenced_needs_brace text N).
    destruct (search_object text) as [g|] eqn:O; [|reflexivity].
    exfalso. apply N.
    destruct (search_object_some text g O) as (pre & body & post & -> & -> & _).
    apply occurs_append. right. left. reflexivity.
Qed.

Lemma json_text_is_the_reply_or_a_braced_part_witness :
  ~ occurs "{" "no object here" /\ json_text "no object here" = "no object here".
Proof.
  assert (N : ~ occurs "{" "no object here").
  { intros H. cbv in H.
    repeat (destruct H as [H|H]; [discriminate H|]). exact H. }
  split; [exact N|].
  exact (proj2 (json_text_is_the_reply_or_a_braced_part "no object here") N).
Defined.

(** The fenced pattern is tried first. *)
Example json_text_prefers_the_fence :
  json_text "see ```json {a} ``` or {b}" = "{a}" /\
  json_text "see {a} or {b}" = "{a} or {b}" /\
  json_text "no object here" = "no object here".
Proof. vm_compute. repeat split. Qed.

(* ================================================================== *)
(** * The answer with its evaluation *)

Section AskProperties.

Variable json_loads : string -> Loads.
Variable float_of_int : Z -> result float.
Variable float_of_str : string -> result float.
Variable agent_run : string -> M string.

Lemma evaluate_quality_returns query context w :
  exists q w',
    evaluate_quality json_loads float_of_int float_of_str query context w
    = (Return q, w').
Proof.
  unfold evaluate_quality, bind.
  destruct (evaluate_relevance_returns json_loads float_of_int float_of_str
              query context w) as (rel & w1 & R).
  rewrite R.
  destruct (evaluate_completeness_returns json_loads float_of_int float_of_str
              query context w1) as (comp & w2 & C).
  rewrite C. unfold ret. eauto.
Qed.

Lemma evaluate_quality_failing_grader query context w e1 e2 rest :
  completions w = Raise e1 :: Raise e2 :: rest ->
  evaluate_quality json_loads float_of_int float_of_str query context w
  = (Return
       (Quality.mk 0
          (Relevance.mk 0 (JStr ("Evaluation error: " ++ e1)%string) (JList []))
          (Completeness.mk 0 (JStr ("Evaluation error: " ++ e2)%string) (JList []))
          "Poor quality - context may not be relevant or complete"),
     set_completions w rest).
Proof.
  intros C.
  unfold evaluate_quality, evaluate_relevance, evaluate_completeness,
    try_except, bind, acomplete, ret.
  rewrite C. cbn [completions set_completions]. reflexivity.
Qed.

(** X16.  [ask_with_evaluation] never raises.  Without an agent it
    answers "Agent not initialized"; when the agent raises, the error is
    the text of that exception; when the agent answers, the request
    succeeds with that answer and the evaluation of it, whatever the
    completion service does.  In particular, when both calls of the
    completion service raise, the request still succeeds: every score is
    0, the explanations carry the two exceptions and the recommendation
    is the poor one. *)
Theorem ask_with_evaluation_survives_the_grader message w :
  (agent_instance w = false ->
   ask_with_evaluation json_loads float_of_int float_of_str agent_run message w
   = (Return (AskFailed "Agent not initialized"), w)) /\
  (agent_instance w = true ->
   forall e w1, agent_run message w = (Raise e, w1) ->
   ask_with_evaluation json_loads float_of_int float_of_str agent_run message w
   = (Return (AskFailed e), w1)) /\
  (agent_instance w = true ->
   forall r w1, agent_run message w = (Return r, w1) ->
   (exists q w2,
      evaluate_quality json_loads float_of_int float_of_str message r w1
      = (Return q, w2) /\
      ask_with_evaluation json_loads float_of_int float_of_str agent_run message w
      = (Return (Answered r q), w2)) /\
   (forall e1 e2 rest, completions w1 = Raise e1 :: Raise e2 :: rest ->
      ask_with_evaluation json_loads float_of_int float_of_str agent_run message w
      = (Return
           (Answered r
              (Quality.mk 0
                 (Relevance.mk 0 (JStr ("Evaluation error: " ++ e1)%string)
                               (JList []))
                 (Completeness.mk 0 (JStr ("Evaluation error: " ++ e2)%string)
                                  (JList []))
                 "Poor quality - context may not be relevant or complete")),
         set_completions w1 rest))).
Proof.
  unfold ask_with_evaluation, get_response_with_evaluation, try_except, bind,
    read_agent_instance.
  split; [|split].
  - intros A. rewrite A. reflexivity.
  - intros A e w1 R. rewrite A. cbn [negb]. rewrite R. reflexivity.
  - intros A r w1 R. rewrite A. cbn [negb]. rewrite R. split.
    + destruct (evaluate_quality_returns message r w1) as (q & w2 & Q).
      exists q, w2. split; [exact Q|]. rewrite Q. reflexivity.
    + intros e1 e2 rest C.
      rewrite (evaluate_quality_failing_grader message r w1 e1 e2 rest C).
      reflexivity.
Qed.

End AskProperties.

Lemma ask_with_evaluation_survives_the_grader_witness :
  ask_with_evaluation sample_json_loads sample_float_of_int sample_float_of_str
    sample_agent_run "What is the essay about?" failing_grader_world
  = (Return
       (Answered "It is about greetings."
          (Quality.mk 0
             (Relevance.mk 0 (JStr "Evaluation error: timeout") (JList []))
             (Completeness.mk 0 (JStr "Evaluation error: rate limit") (JList []))
             "Poor quality - context may not be relevant or complete")),
     set_completions failing_grader_world []).
Proof.
  assert (A : agent_instance failing_grader_world = true) by reflexivity.
  assert (R : sample_agent_run "What is the essay about?" failing_grader_world
              = (Return "It is about greetings.", failing_grader_world))
    by reflexivity.
  assert (C : completions failing_grader_world
              = Raise "timeout" :: Raise "rate limit" :: []) by reflexivity.
  exact (proj2 (proj2 (proj2
           (ask_with_evaluation_survives_the_grader
              sample_json_loads sample_float_of_int sample_float_of_str
              sample_agent_run "What is the essay about?" failing_grader_world))
           A "It is about greetings." failing_grader_world R)
           "timeout" "rate limit" [] C).
Defined.

(* ================================================================== *)
(** * The file tool and the data folder *)

Section FileToolProperties.

Variable read_text : string -> result string.

Lemma find_path_after_write p bytes d :
  find (path_is p) (write_file p bytes d) = Some (p, bytes).
Proof.
  unfold write_file. cbn [find]. unfold path_is at 1. cbn [fst].
  rewrite String.eqb_refl. reflexivity.
Qed.

Lemma existsb_path_after_write p bytes d :
  existsb (path_is p) (write_file p bytes d) = true.
Proof.
  unfold write_file. cbn [existsb]. unfold path_is at 1. cbn [fst].
  rewrite String.eqb_refl. reflexivity.
Qed.

Lemma path_gone_after_remove p d :
  existsb (path_is p) (remove_file p d) = false.
Proof.
  unfold remove_file. induction d as [|e d IH]; [reflexivity|].
  cbn [filter]. destruct (path_is p e) eqn:E; cbn [negb]; [exact IH|].
  cbn [existsb]. rewrite E, IH. reflexivity.
Qed.

Lemma execute_missing name w :
  existsb (path_is (data_path name)) (disk w) = false ->
  FileSystemMCPTool.execute read_text name w
  = (Return ("Error: File " ++ name ++ " not found in data directory")%string, w).
Proof.
  intros E.
  unfold FileSystemMCPTool.execute, try_except, bind, path_exists, ret.
  rewrite E. reflexivity.
Qed.

(** X17.  The file tool reads what the service stores.  It never
    raises and never changes the world.  For a plain file name (not
    empty, not [.] or [..], without a separator): after
    [save_file_to_data_folder] has written an upload of that name, the
    tool called with the name gives the text that the bytes of the
    upload decode to, after the heading "File contents of"; when they
    do not decode, it gives "Error reading file" with the exception.
    After [delete_file] of that name, the tool answers that the file is
    not found. *)
Theorem file_tool_reads_what_is_stored :
  (forall name w, exists s,
     FileSystemMCPTool.execute read_text name w = (Return s, w)) /\
  (forall f w,
     plain_name (filename f) = true ->
     next_fault (disk_faults w) = false ->
     let w1 := snd (save_file_to_data_folder f w) in
     FileSystemMCPTool.execute read_text (filename f) w1
     = (Return
          match read_text (file f) with
          | Return content =>
              ("File contents of " ++ filename f ++ ":"
               ++ FileSystemMCPTool.newline ++ content)%string
          | Raise e =>
              ("Error reading file " ++ filename f ++ ": " ++ e)%string
          end,
        w1)) /\
  (forall name w,
     plain_name name = true ->
     let w1 := snd (delete_file name w) in
     FileSystemMCPTool.execute read_text name w1
     = (Return ("Error: File " ++ name ++ " not found in data directory")%string,
        w1)).
Proof.
  split; [|split].
  - intros name w.
    unfold FileSystemMCPTool.execute, try_except, bind, path_exists,
      FileSystemMCPTool.open_and_read, ret.
    destruct (existsb (path_is (data_path name)) (disk w)); cbn [negb].
    + destruct (find (path_is (data_path name)) (disk w)) as [entry|].
      * destruct (read_text (snd entry)); eauto.
      * eauto.
    + eauto.
  - intros f w _ F w1. subst w1.
    unfold save_file_to_data_folder. rewrite F. cbn [snd].
    unfold FileSystemMCPTool.execute, try_except, bind, path_exists,
      FileSystemMCPTool.open_and_read, ret.
    cbv zeta. cbn [disk set_disk].
    rewrite existsb_path_after_write. cbn [negb]. cbv beta.
    cbn [disk set_disk]. rewrite find_path_after_write. cbn [snd].
    destruct (read_text (file f)); reflexivity.
  - intros name w _ w1. subst w1. apply execute_missing.
    unfold delete_file, bind, path_exists, ret.
    destruct (existsb (path_is (data_path name)) (disk w)) eqn:E; cbn [snd].
    + cbn [disk set_disk]. apply path_gone_after_remove.
    + exact E.
Qed.

End FileToolProperties.

Lemma file_tool_reads_what_is_stored_witness :
  plain_name (filename essay_upload) = true /\
  next_fault (disk_faults empty_world) = false /\
  FileSystemMCPTool.execute sample_read_text "essay.txt"
    (snd (save_file_to_data_folder essay_upload empty_world))
  = (Return
       match sample_read_text (file essay_upload) with
       | Return content =>
           ("File contents of " ++ filename essay_upload ++ ":"
            ++ FileSystemMCPTool.newline ++ content)%string
       | Raise e =>
           ("Error reading file " ++ filename essay_upload ++ ": " ++ e)%string
       end,
     snd (save_file_to_data_folder essay_upload empty_world)) /\
  FileSystemMCPTool.execute sample_read_text "essay.txt"
    (snd (delete_file "essay.txt" essay_world))
  = (Return "Error: File essay.txt not found in data directory",
     snd (delete_file "essay.txt" essay_world)).
Proof.
  assert (P : plain_name (filename essay_upload) = true) by (vm_compute; reflexivity).
  assert (F : next_fault (disk_faults empty_world) = false) by reflexivity.
  split; [exact P|]. split; [exact F|]. split.
  - exact (proj1 (proj2 (file_tool_reads_what_is_stored sample_read_text))
             essay_upload empty_world P F).
  - exact (proj2 (proj2 (file_tool_reads_what_is_stored sample_read_text))
             "essay.txt" essay_world P).
Defined.
